(** * Weekly statistics of utopian.rocks ([utopian/app.py])

    A shallow embedding of the aggregation functions of [utopian/app.py]:
    [average], [percentage], [moderator_statistics], [category_statistics],
    [project_statistics], [staff_pick_statistics] and
    [task_request_statistics], followed by the properties established for
    them.

    Conventions of the embedding.
    - Counters, which only ever grow from [0] by [+= 1], are natural
      numbers.  The other numbers the reducers carry (scores, payouts,
      averages, percentages) are written in exact arithmetic ([Q]): the
      properties proved of the reducers use no law of arithmetic on them.
      Python's own numbers, integers of any size and doubles with their
      rounding, overflow and NaN, are the subject of module [Py], which
      has [statistics.mean] and [average] on them.
    - Python exceptions are values of [exn]; a function that can raise
      returns a [result].
    - A Python [dict] used as a map (the accumulators [moderators],
      [categories], [projects], and a [Counter]) is an insertion-ordered
      association list without repeated keys, module [Dict].
    - A contribution (a [dict] decoded from JSON and used as a record) is a
      record with one typed field per key the program reads. *)

From Stdlib Require Import List String Ascii Bool Arith ZArith QArith Lia.
From Stdlib Require Floats Qcanon.
Import ListNotations.

Local Open Scope string_scope.
Local Open Scope list_scope.
Local Open Scope nat_scope.

(** ** Exceptions *)

Inductive exn : Type :=
| IndexError
| KeyError
| ZeroDivisionError
| StatisticsError
| OverflowError.

Inductive result (A : Type) : Type :=
| Ok (a : A)
| Raise (e : exn).

Arguments Ok {A} a.
Arguments Raise {A} e.

Definition bind {A B : Type} (r : result A) (k : A -> result B) : result B :=
  match r with
  | Ok a => k a
  | Raise e => Raise e
  end.

Notation "x <- r ;; k" := (bind r (fun x => k))
  (at level 61, r at next level, right associativity).

(** [for x in l: s = body(s, x)], stopping at the first exception. *)
Fixpoint for_each {S A : Type} (body : S -> A -> result S) (l : list A) (s : S)
  : result S :=
  match l with
  | [] => Ok s
  | x :: l' => s' <- body s x ;; for_each body l' s'
  end.

(** ** Strings: [sub in s] and [s.split(sep)] *)

Module Str.

(** [sub in s]: [sub] occurs in [s] at some position. *)
Fixpoint contains (sub s : string) : bool :=
  match s with
  | EmptyString => prefix sub s
  | String _ s' => prefix sub s || contains sub s'
  end.

(** [s.split(sep)] for a non-empty [sep]: the pieces of [s] between the
    occurrences of [sep], found from the left and not overlapping.  [cur]
    is the piece being read; [skip] counts the characters of an occurrence
    of [sep] that are still to be passed over. *)
Fixpoint split_go (sep : string) (skip : nat) (cur : string) (s : string)
  : list string :=
  match s with
  | EmptyString => [cur]
  | String c s' =>
      match skip with
      | S n => split_go sep n cur s'
      | O =>
          if prefix sep s
          then cur :: split_go sep (String.length sep - 1) "" s'
          else split_go sep 0 (cur ++ String c "") s'
      end
  end.

Definition split (sep s : string) : list string := split_go sep 0 "" s.

(** [sep] does not overlap a shifted copy of itself: an occurrence that
    starts inside [pre ++ sep] starts at its end or lies within [pre].
    (Not from the program: a property of separators used in the proofs.) *)
Definition unbordered (sep : string) : Prop :=
  sep <> "" /\
  forall pre rest : string,
    prefix sep (pre ++ sep ++ rest)%string = true ->
    pre = "" \/ prefix sep pre = true.

End Str.

(** [l[i]] *)
Definition getitem {A : Type} (l : list A) (i : nat) : result A :=
  match nth_error l i with
  | Some x => Ok x
  | None => Raise IndexError
  end.

(** ** Insertion-ordered dictionaries with string keys *)

Module Dict.
Section Dict.
Context {V : Type}.

Definition t : Type := list (string * V).

(** [d.get(k)] *)
Fixpoint get (k : string) (d : t) : option V :=
  match d with
  | [] => None
  | (k', v) :: d' => if String.eqb k' k then Some v else get k d'
  end.

(** [d[k] = v]: replaces the value in place, or adds the key at the end. *)
Fixpoint set (k : string) (v : V) (d : t) : t :=
  match d with
  | [] => [(k, v)]
  | (k', v') :: d' =>
      if String.eqb k' k then (k', v) :: d' else (k', v') :: set k v d'
  end.

(** [d.setdefault(k, v)], for its effect on [d]. *)
Definition setdefault (k : string) (v : V) (d : t) : t :=
  match get k d with
  | Some _ => d
  | None => set k v d
  end.

(** [d[k]] *)
Definition item (k : string) (d : t) : result V :=
  match get k d with
  | Some v => Ok v
  | None => Raise KeyError
  end.

(** An update in place of the value stored under [k], as in
    [d[k]["n"] += 1] or [d[k]["l"].append(x)]: [d[k]] is looked up (and
    raises [KeyError] when absent) and the object found is mutated. *)
Definition modify (k : string) (f : V -> V) (d : t) : result t :=
  v <- item k d ;; Ok (set k (f v) d).

Definition keys (d : t) : list string := map fst d.
Definition values (d : t) : list V := map snd d.
End Dict.

Arguments t V : clear implicits.
End Dict.

(** [k in l] *)
Definition mem (k : string) (l : list string) : bool :=
  existsb (fun k' => String.eqb k' k) l.

(** [collections.Counter(l)]: each element counted, in first-seen order. *)
Definition Counter (l : list string) : Dict.t nat :=
  fold_left
    (fun d x => Dict.set x (match Dict.get x d with Some n => n | None => 0 end + 1) d)
    l [].

(** ** Records *)

(** A contribution, with the keys read by the functions below. *)
Module Contribution.
Record t : Type := mk {
  status : string;
  category : string;
  repository : string;
  moderator : string;
  score : Q;
  total_payout : Q;
  total_votes : Q;
  staff_picked : bool;
  voted_on : bool;
  author : string;
  url : string
}.
End Contribution.

(** The value stored per moderator while [moderator_statistics] iterates. *)
Module ModeratorAcc.
Record t : Type := mk {
  moderator : string;
  category : list string;
  average_score : list Q
}.
End ModeratorAcc.

(** The same value once the second loop has replaced ["category"] and
    ["average_score"]. *)
Module ModeratorStat.
Record t : Type := mk {
  moderator : string;
  category : Dict.t nat;
  average_score : Q
}.
End ModeratorStat.

(** The value stored per category or project while [category_statistics]
    and [project_statistics] iterate.  [key] is the entry ["category"],
    respectively ["project"]; [task_requests] is the entry
    ["task-requests"]. *)
Module Acc.
Record t : Type := mk {
  key : string;
  average_score : list Q;
  voted : nat;
  not_voted : nat;
  unvoted : nat;
  task_requests : nat;
  moderators : list string;
  average_payout : list Q;
  total_payout : Q
}.

(** The literal passed to [setdefault]. *)
Definition fresh (k : string) : t :=
  mk k [] 0 0 0 0 [] [] 0%Q.

Definition incr_voted (v : t) : t :=
  mk (key v) (average_score v) (voted v + 1) (not_voted v) (unvoted v)
     (task_requests v) (moderators v) (average_payout v) (total_payout v).

Definition incr_not_voted (v : t) : t :=
  mk (key v) (average_score v) (voted v) (not_voted v + 1) (unvoted v)
     (task_requests v) (moderators v) (average_payout v) (total_payout v).

Definition incr_unvoted (v : t) : t :=
  mk (key v) (average_score v) (voted v) (not_voted v) (unvoted v + 1)
     (task_requests v) (moderators v) (average_payout v) (total_payout v).

Definition incr_task_requests (v : t) : t :=
  mk (key v) (average_score v) (voted v) (not_voted v) (unvoted v)
     (task_requests v + 1) (moderators v) (average_payout v) (total_payout v).

Definition append_moderator (m : string) (v : t) : t :=
  mk (key v) (average_score v) (voted v) (not_voted v) (unvoted v)
     (task_requests v) (moderators v ++ [m]) (average_payout v) (total_payout v).

Definition append_score (s : Q) (v : t) : t :=
  mk (key v) (average_score v ++ [s]) (voted v) (not_voted v) (unvoted v)
     (task_requests v) (moderators v) (average_payout v) (total_payout v).

Definition add_payout (p : Q) (v : t) : t :=
  mk (key v) (average_score v) (voted v) (not_voted v) (unvoted v)
     (task_requests v) (moderators v) (average_payout v) (total_payout v + p)%Q.
End Acc.

(** The same value once the second loop has added ["reviewed"] and
    ["pct_voted"] and replaced ["average_score"], ["moderators"] and
    ["average_payout"]. *)
Module Stat.
Record t : Type := mk {
  key : string;
  average_score : Q;
  voted : nat;
  not_voted : nat;
  unvoted : nat;
  task_requests : nat;
  moderators : Dict.t nat;
  average_payout : Q;
  total_payout : Q;
  reviewed : nat;
  pct_voted : Q
}.
End Stat.

(** ** Numeric helpers *)

Definition of_nat (n : nat) : Q := inject_Z (Z.of_nat n).

Definition sum (l : list Q) : Q := fold_left Qplus l 0%Q.

(** [a / b] *)
Definition truediv (a b : Q) : result Q :=
  if Qeq_bool b 0 then Raise ZeroDivisionError else Ok (a / b)%Q.

(** [statistics.mean(data)] *)
Definition mean (data : list Q) : result Q :=
  match data with
  | [] => Raise StatisticsError
  | _ :: _ => Ok (sum data / of_nat (List.length data))%Q
  end.

Definition average (score : list Q) : Q :=
  match mean score with
  | Ok m => m
  | Raise _ => 0%Q
  end.

Definition percentage (reviewed voted : nat) : result Q :=
  match truediv (100 * of_nat voted) (of_nat reviewed) with
  | Ok p => Ok p
  | Raise ZeroDivisionError => Ok 100%Q
  | Raise e => Raise e
  end.

(** ** The reducers

    Each function returns the collection stored under the single key of the
    dictionary the Python function returns (["moderators"], ["categories"],
    ["projects"], ["staff_picks"], ["task_requests"]). *)

Section Reducers.
Import Contribution.

(** *** [moderator_statistics] *)

(** The body of the first loop. *)
Definition moderator_body (moderators : Dict.t ModeratorAcc.t) (contribution : Contribution.t)
  : result (Dict.t ModeratorAcc.t) :=
  if (status contribution =? "unreviewed")%string then Ok moderators
  else
    let moderator := moderator contribution in
    if (moderator =? "BANNED")%string then Ok moderators
    else
      let moderators :=
        Dict.setdefault moderator (ModeratorAcc.mk moderator [] []) moderators in
      moderators <-
        Dict.modify moderator
          (fun v => ModeratorAcc.mk (ModeratorAcc.moderator v) (ModeratorAcc.category v)
                      (ModeratorAcc.average_score v ++ [score contribution]))
          moderators ;;
      Dict.modify moderator
        (fun v => ModeratorAcc.mk (ModeratorAcc.moderator v)
                    (ModeratorAcc.category v ++ [category contribution])
                    (ModeratorAcc.average_score v))
        moderators.

(** The body of the second loop, on one value. *)
Definition moderator_finish (value : ModeratorAcc.t) : ModeratorStat.t :=
  ModeratorStat.mk (ModeratorAcc.moderator value)
    (Counter (ModeratorAcc.category value))
    (average (ModeratorAcc.average_score value)).

Definition moderator_statistics (contributions : list Contribution.t)
  : result (list ModeratorStat.t) :=
  moderators <- for_each moderator_body contributions [] ;;
  for_each (fun moderator_list value => Ok (moderator_list ++ [moderator_finish value]))
    (Dict.values moderators) [].

(** *** [category_statistics] *)

(** Lines 172-177: the category a contribution is counted under, and
    whether it is a task request. *)
Definition main_category (category : string) : result (string * bool) :=
  if Str.contains "task" category
  then category <- getitem (Str.split "task-" category) 1 ;; Ok (category, true)
  else Ok (category, false).

Definition category_body (categories : Dict.t Acc.t) (contribution : Contribution.t)
  : result (Dict.t Acc.t) :=
  if (status contribution =? "unreviewed")%string then Ok categories
  else
    ck <- main_category (category contribution) ;;
    let category := fst ck in
    let is_task := snd ck in
    let categories := Dict.setdefault category (Acc.fresh category) categories in
    categories <-
      (if (status contribution =? "unvoted")%string then
         categories <- Dict.modify category Acc.incr_unvoted categories ;;
         Dict.modify category Acc.incr_not_voted categories
       else if voted_on contribution then
         Dict.modify category Acc.incr_voted categories
       else
         Dict.modify category Acc.incr_not_voted categories) ;;
    categories <-
      (if is_task : bool then Dict.modify category Acc.incr_task_requests categories
       else Ok categories) ;;
    categories <-
      Dict.modify category (Acc.append_moderator (moderator contribution)) categories ;;
    categories <-
      Dict.modify category (Acc.append_score (score contribution)) categories ;;
    Dict.modify category (Acc.add_payout (total_payout contribution)) categories.

Definition category_finish (value : Acc.t) : result Stat.t :=
  let reviewed := Acc.voted value + Acc.not_voted value in
  let average_score := average (Acc.average_score value) in
  let moderators := Counter (Acc.moderators value) in
  average_payout <- truediv (Acc.total_payout value) (of_nat reviewed) ;;
  pct_voted <- percentage reviewed (Acc.voted value) ;;
  Ok (Stat.mk (Acc.key value) average_score (Acc.voted value) (Acc.not_voted value)
        (Acc.unvoted value) (Acc.task_requests value) moderators average_payout
        (Acc.total_payout value) reviewed pct_voted).

Definition category_statistics (contributions : list Contribution.t)
  : result (list Stat.t) :=
  categories <- for_each category_body contributions [] ;;
  for_each
    (fun category_list value => value <- category_finish value ;; Ok (category_list ++ [value]))
    (Dict.values categories) [].

(** *** [project_statistics] *)

Definition project_body (projects : Dict.t Acc.t) (contribution : Contribution.t)
  : result (Dict.t Acc.t) :=
  if (status contribution =? "unreviewed")%string then Ok projects
  else
    let project := repository contribution in
    let projects := Dict.setdefault project (Acc.fresh project) projects in
    projects <-
      (if (status contribution =? "unvoted")%string then
         projects <- Dict.modify project Acc.incr_unvoted projects ;;
         Dict.modify project Acc.incr_not_voted projects
       else if voted_on contribution then
         Dict.modify project Acc.incr_voted projects
       else
         Dict.modify project Acc.incr_not_voted projects) ;;
    projects <-
      (if Str.contains "task" (category contribution)
       then Dict.modify project Acc.incr_task_requests projects
       else Ok projects) ;;
    projects <-
      Dict.modify project (Acc.append_moderator (moderator contribution)) projects ;;
    projects <-
      Dict.modify project (Acc.append_score (score contribution)) projects ;;
    Dict.modify project (Acc.add_payout (total_payout contribution)) projects.

Definition project_finish (value : Acc.t) : result Stat.t :=
  let reviewed := Acc.voted value + Acc.not_voted value in
  let average_score := average (Acc.average_score value) in
  average_payout <- truediv (Acc.total_payout value) (of_nat reviewed) ;;
  let moderators := Counter (Acc.moderators value) in
  pct_voted <- percentage reviewed (Acc.voted value) ;;
  Ok (Stat.mk (Acc.key value) average_score (Acc.voted value) (Acc.not_voted value)
        (Acc.unvoted value) (Acc.task_requests value) moderators average_payout
        (Acc.total_payout value) reviewed pct_voted).

Definition project_statistics (contributions : list Contribution.t)
  : result (list Stat.t) :=
  projects <- for_each project_body contributions [] ;;
  for_each
    (fun project_list value => value <- project_finish value ;; Ok (project_list ++ [value]))
    (Dict.values projects) [].

(** *** The two filters *)

Definition staff_pick_statistics (contributions : list Contribution.t)
  : list Contribution.t :=
  fold_left
    (fun staff_picks contribution =>
       if negb (staff_picked contribution) then staff_picks
       else staff_picks ++ [contribution])
    contributions [].

Definition task_request_statistics (contributions : list Contribution.t)
  : list Contribution.t :=
  fold_left
    (fun task_requests contribution =>
       if Str.contains "task" (category contribution)
       then task_requests ++ [contribution]
       else task_requests)
    contributions [].

End Reducers.

(** ** Grouping, described without the dictionary

    The definitions of this section are not taken from the program: they
    say what a grouping loop computes, and the reducers are compared with
    them below. *)

(** The distinct elements of [l], in the order of their first occurrence. *)
Fixpoint distinct (l : list string) : list string :=
  match l with
  | [] => []
  | x :: l' => x :: filter (fun y => negb (String.eqb y x)) (distinct l')
  end.

Definition default {A : Type} (d : A) (o : option A) : A :=
  match o with
  | Some a => a
  | None => d
  end.

Section GroupBy.
Context {E V : Type}.
Variable key : E -> string.
Variable init : string -> V.
Variable upd : E -> V -> V.

(** One iteration on a dictionary: the value under [key e], or [init]
    when the key is new, is updated with [e]. *)
Definition group_step (d : Dict.t V) (e : E) : Dict.t V :=
  Dict.set (key e) (upd e (default (init (key e)) (Dict.get (key e) d))) d.

(** The elements of [es] filed under [k]. *)
Definition members (k : string) (es : list E) : list E :=
  filter (fun e => String.eqb (key e) k) es.

(** The value accumulated from the members of [k], in their order. *)
Definition accumulate (k : string) (es : list E) : V :=
  fold_left (fun v e => upd e v) (members k es) (init k).

Definition grouped (es : list E) : list V :=
  map (fun k => accumulate k es) (distinct (map key es)).
End GroupBy.

Section Specifications.
Import Contribution.

Definition reviewed_only (contributions : list Contribution.t) : list Contribution.t :=
  filter (fun c => negb (status c =? "unreviewed")%string) contributions.

(** The moderator statistics in the words of the specification: the
    unreviewed and the banned excluded, the rest grouped by moderator, the
    scores averaged and the categories counted. *)
Definition moderator_kept (contributions : list Contribution.t) : list Contribution.t :=
  filter
    (fun c => negb (status c =? "unreviewed")%string && negb (moderator c =? "BANNED")%string)
    contributions.

Definition moderator_statistics_spec (contributions : list Contribution.t)
  : list ModeratorStat.t :=
  let kept := moderator_kept contributions in
  map
    (fun m =>
       let group := filter (fun c => (moderator c =? m)%string) kept in
       ModeratorStat.mk m (Counter (map category group)) (average (map score group)))
    (distinct (map moderator kept)).

(** What one counted contribution does to the value of its group. *)
Definition count_vote (c : Contribution.t) (v : Acc.t) : Acc.t :=
  if (status c =? "unvoted")%string then Acc.incr_not_voted (Acc.incr_unvoted v)
  else if voted_on c then Acc.incr_voted v
  else Acc.incr_not_voted v.

Definition tally (is_task : bool) (c : Contribution.t) (v : Acc.t) : Acc.t :=
  Acc.add_payout (total_payout c)
    (Acc.append_score (score c)
       (Acc.append_moderator (moderator c)
          ((if is_task then Acc.incr_task_requests else fun v => v) (count_vote c v)))).

(** A counted contribution with the key it is grouped under and its
    task-request flag. *)
Definition event : Type := string * bool * Contribution.t.
Definition ev_key (e : event) : string := fst (fst e).
Definition ev_task (e : event) : bool := snd (fst e).
Definition ev_contribution (e : event) : Contribution.t := snd e.
Definition ev_tally (e : event) : Acc.t -> Acc.t := tally (ev_task e) (ev_contribution e).

Definition project_event (c : Contribution.t) : event :=
  (repository c, Str.contains "task" (category c), c).

Definition project_events (contributions : list Contribution.t) : list event :=
  map project_event (reviewed_only contributions).

Fixpoint category_events (contributions : list Contribution.t) : result (list event) :=
  match contributions with
  | [] => Ok []
  | c :: cs =>
      if (status c =? "unreviewed")%string then category_events cs
      else
        ck <- main_category (category c) ;;
        es <- category_events cs ;;
        Ok ((fst ck, snd ck, c) :: es)
  end.

(** The vote outcome of a counted contribution. *)
Definition is_unvoted (c : Contribution.t) : bool := (status c =? "unvoted")%string.
Definition is_voted (c : Contribution.t) : bool := negb (is_unvoted c) && voted_on c.
Definition is_not_voted (c : Contribution.t) : bool := is_unvoted c || negb (voted_on c).

Definition count {A : Type} (p : A -> bool) (l : list A) : nat :=
  List.length (filter p l).

(** What one iteration of [moderator_statistics] does to the value of a
    moderator. *)
Definition moderator_init (m : string) : ModeratorAcc.t := ModeratorAcc.mk m [] [].

Definition moderator_upd (c : Contribution.t) (v : ModeratorAcc.t) : ModeratorAcc.t :=
  ModeratorAcc.mk (ModeratorAcc.moderator v)
    (ModeratorAcc.category v ++ [category c])
    (ModeratorAcc.average_score v ++ [score c]).

(** The second loop of [category_statistics] and [project_statistics] on a
    value with [reviewed <> 0]. *)
Definition stat_of (value : Acc.t) : Stat.t :=
  let reviewed := Acc.voted value + Acc.not_voted value in
  Stat.mk (Acc.key value) (average (Acc.average_score value)) (Acc.voted value)
    (Acc.not_voted value) (Acc.unvoted value) (Acc.task_requests value)
    (Counter (Acc.moderators value))
    (Acc.total_payout value / of_nat reviewed)%Q
    (Acc.total_payout value) reviewed
    (100 * of_nat (Acc.voted value) / of_nat reviewed)%Q.

(** One iteration of [category_statistics] on [c] files [c] under [k] and
    adds [n] to the task requests of [k]: the iteration returns, the value
    under [k] counts one more contribution and [n] more task requests than
    before (than a fresh value when [k] is new), and no other key changes. *)
Definition files_under (d : Dict.t Acc.t) (c : Contribution.t) (k : string) (n : nat)
  : Prop :=
  exists d' new,
    category_body d c = Ok d' /\
    Dict.get k d' = Some new /\
    (let old := default (Acc.fresh k) (Dict.get k d) in
     Acc.task_requests new = Acc.task_requests old + n /\
     Acc.voted new + Acc.not_voted new = Acc.voted old + Acc.not_voted old + 1) /\
    (forall k', k' <> k -> Dict.get k' d' = Dict.get k' d).

(** One iteration [body] on [c] accounts for the vote of [c] under [k]: the
    iteration returns, the counters of the value under [k] move from their
    state before (from a fresh value when [k] is new) by the one outcome
    that applies, in the order unvoted, voted on, not voted on, and no other
    key changes. *)
Definition accounts_vote
    (body : Dict.t Acc.t -> Contribution.t -> result (Dict.t Acc.t))
    (d : Dict.t Acc.t) (c : Contribution.t) (k : string) : Prop :=
  exists d' new,
    body d c = Ok d' /\
    Dict.get k d' = Some new /\
    (let old := default (Acc.fresh k) (Dict.get k d) in
     (status c = "unvoted" ->
      Acc.unvoted new = Acc.unvoted old + 1 /\
      Acc.not_voted new = Acc.not_voted old + 1 /\
      Acc.voted new = Acc.voted old) /\
     (status c <> "unvoted" -> voted_on c = true ->
      Acc.voted new = Acc.voted old + 1 /\
      Acc.not_voted new = Acc.not_voted old /\
      Acc.unvoted new = Acc.unvoted old) /\
     (status c <> "unvoted" -> voted_on c = false ->
      Acc.not_voted new = Acc.not_voted old + 1 /\
      Acc.voted new = Acc.voted old /\
      Acc.unvoted new = Acc.unvoted old)) /\
    (forall k', k' <> k -> Dict.get k' d' = Dict.get k' d).

(** [k] is the text of [category] between its first ["task-"] and the next
    one, or the end when there is no other. *)
Definition key_after_task (category k : string) : Prop :=
  exists pre tail : string,
    category = (pre ++ "task-" ++ tail)%string /\
    Str.contains "task-" pre = false /\
    ((Str.contains "task-" tail = false /\ k = tail) \/
     (exists rest : string,
         tail = (k ++ "task-" ++ rest)%string /\ Str.contains "task-" k = false)).

(** [c] is a contribution [category_statistics] counts under [k]. *)
Definition counted_under (k : string) (c : Contribution.t) : bool :=
  match main_category (category c) with
  | Ok (k', _) => (k' =? k)%string
  | Raise _ => false
  end.

(** The bucket [b] is the one of key [k], it counts every counted
    contribution of [cs] in the group [in_group], and its moderator counts
    give, for ["BANNED"], the number of those whose moderator is ["BANNED"],
    which is at least one. *)
Definition counts_banned (b : Stat.t) (k : string) (in_group : Contribution.t -> bool)
    (cs : list Contribution.t) : Prop :=
  let banned :=
    count (fun c => in_group c && (moderator c =? "BANNED")%string) (reviewed_only cs) in
  Stat.key b = k /\
  Stat.reviewed b = count in_group (reviewed_only cs) /\
  Dict.get "BANNED" (Stat.moderators b) = Some banned /\
  1 <= banned.

Definition keys_of (r : result (list Stat.t)) : result (list string) :=
  out <- r ;; Ok (map Stat.key out).
End Specifications.

(** ** Python numbers: [statistics.mean] and [average] with rounding

    A number is an [int], of any size, or a [float], a binary64 double.
    [statistics.mean] adds the values as exact fractions, divides by their
    count and converts the quotient: to an [int] when the values are all
    [int] and the quotient is whole, and otherwise to the nearest double
    (ties to even), raising [OverflowError] when that is no finite double.
    Infinities and NaN are added apart, as doubles.  (CPython 3.11,
    [statistics.py] and [int.__truediv__].) *)

Module Py.
Import Floats.

Inductive num : Type :=
| Int (z : Z)
| Float (f : float).

(** An [int] as the operand of an IEEE division. *)
Definition int_spec (z : Z) : spec_float :=
  match z with
  | Z0 => S754_zero false
  | Zpos p => S754_finite false p 0
  | Zneg p => S754_finite true p 0
  end.

(** [a / b] on two [int]: the quotient rounded to the nearest double. *)
Definition true_divide (a b : Z) : result float :=
  if (b =? 0)%Z then Raise ZeroDivisionError
  else
    match SFdiv prec emax (int_spec a) (int_spec b) with
    | S754_infinity _ => Raise OverflowError
    | q => Ok (SF2Prim q)
    end.

(** [float(z)] *)
Definition float_of_int (z : Z) : result float := true_divide z 1.

(** [f.as_integer_ratio()], a fraction in lowest terms; [None] for
    infinities and NaN, where Python raises. *)
Definition as_integer_ratio (f : float) : option Q :=
  match Prim2SF f with
  | S754_zero _ => Some 0%Q
  | S754_finite s m (Zpos p) =>
      Some (inject_Z (if s then Zneg (Pos.iter xO m p) else Zpos (Pos.iter xO m p)))
  | S754_finite s m Z0 => Some (inject_Z (if s then Zneg m else Zpos m))
  | S754_finite s m (Zneg p) =>
      Some (Qred (Qmake (if s then Zneg m else Zpos m) (Pos.iter xO xH p)))
  | S754_infinity _ | S754_nan => None
  end.

(** [_exact_ratio(x)]; [None] stands for the pair [(x, None)]. *)
Definition _exact_ratio (x : num) : option Q :=
  match x with
  | Int z => Some (inject_Z z)
  | Float f => as_integer_ratio f
  end.

Definition is_int (x : num) : bool :=
  match x with
  | Int _ => true
  | Float _ => false
  end.

(** [partials[None]] after the loop of [_sum]: the infinities and NaN of
    the data added as doubles, the first one to the [int] [0]. *)
Definition partial_none (data : list num) : option float :=
  fold_left
    (fun partial x =>
       match x with
       | Float f =>
           match as_integer_ratio f with
           | Some _ => partial
           | None => Some (match partial with Some t => t + f | None => 0 + f end)%float
           end
       | Int _ => partial
       end)
    data None.

(** The sum of the other partials: the finite values added as fractions. *)
Definition total (data : list num) : Q :=
  fold_left
    (fun t x => match _exact_ratio x with Some q => (t + q)%Q | None => t end)
    data 0%Q.

(** [statistics.mean(data)] *)
Definition mean (data : list num) : result num :=
  let n := Z.of_nat (List.length data) in
  if (n <? 1)%Z then Raise StatisticsError
  else
    match partial_none data with
    | Some t => d <- float_of_int n ;; Ok (Float (t / d)%float)
    | None =>
        let value := Qred (total data / inject_Z n) in
        if forallb is_int data && (Qden value =? 1)%positive
        then Ok (Int (Qnum value))
        else f <- true_divide (Qnum value) (Zpos (Qden value)) ;; Ok (Float f)
    end.

(** [average(score)]: [try: return mean(score) except Exception: return 0] *)
Definition average (score : list num) : num :=
  match mean score with
  | Ok m => m
  | Raise _ => Int 0
  end.

(** [x == y] *)
Definition eq (x y : num) : bool :=
  match x, y with
  | Int a, Int b => (a =? b)%Z
  | Float a, Float b => (a =? b)%float
  | Int a, Float b | Float b, Int a =>
      match as_integer_ratio b with
      | Some q => Qeq_bool q (inject_Z a)
      | None => false
      end
  end.
End Py.

(** The sum of a list of integers and the arithmetic mean of a list of
    fractions (not from the program). *)
Definition isum (zs : list Z) : Z := fold_right Z.add 0%Z zs.

Definition qmean (qs : list Q) : Q :=
  (fold_right Qplus 0 qs / inject_Z (Z.of_nat (List.length qs)))%Q.

(** ** Sample inputs *)

Module Sample.
(** [{status: "reviewed", category: "task-dev", voted_on: true,
      total_payout: 10}], the other keys filled in. *)
Definition task_dev : Contribution.t :=
  Contribution.mk "reviewed" "task-dev" "utopian.rocks" "amosbastian" 80 10 25 false true
    "alice" "https://steemit.com/@alice/post".

Definition task_twice : Contribution.t :=
  Contribution.mk "reviewed" "task-a-task-b" "utopian.rocks" "amosbastian" 80 10 25 false true
    "alice" "https://steemit.com/@alice/post".

Definition task_bare : Contribution.t :=
  Contribution.mk "reviewed" "task" "utopian.rocks" "amosbastian" 80 10 25 false true
    "alice" "https://steemit.com/@alice/post".

Definition task_ideas_unreviewed : Contribution.t :=
  Contribution.mk "unreviewed" "task-ideas" "utopian.rocks" "amosbastian" 0 0 0 false false
    "alice" "https://steemit.com/@alice/ideas".

Definition banned_development : Contribution.t :=
  Contribution.mk "unvoted" "development" "utopian.rocks" "BANNED" 0 0 0 false false
    "mallory" "https://steemit.com/@mallory/post".

Definition unreviewed_a : Contribution.t :=
  Contribution.mk "unreviewed" "development" "utopian.rocks" "A" 0 0 0 false false
    "alice" "https://steemit.com/@alice/pending".

Definition banned_5 : Contribution.t :=
  Contribution.mk "reviewed" "development" "utopian.rocks" "BANNED" 5 0 0 false false
    "mallory" "https://steemit.com/@mallory/post".

Definition banned_task : Contribution.t :=
  Contribution.mk "reviewed" "task" "utopian.rocks" "BANNED" 5 0 0 false false
    "mallory" "https://steemit.com/@mallory/task".

Definition reviewed_b_8 : Contribution.t :=
  Contribution.mk "reviewed" "c1" "utopian.rocks" "B" 8 10 25 true true
    "bob" "https://steemit.com/@bob/post".
End Sample.

(** ** The rest of [utopian/app.py] *)

(** *** [without_score]

    [{x: contribution[x] for x in contribution if x != "score"}], on a
    contribution as the database returns it: a dictionary, here with values
    of any type [V]. *)
Definition without_score {V : Type} (contribution : Dict.t V) : result (Dict.t V) :=
  for_each
    (fun d x =>
       if negb (x =? "score")%string
       then v <- Dict.item x contribution ;; Ok (Dict.set x v d)
       else Ok d)
    (Dict.keys contribution) [].

(** The entries [without_score] keeps. *)
Definition keeps {V : Type} (kv : string * V) : bool := negb (fst kv =? "score")%string.

(** *** [staff_pick_section] and [weekly]

    The title of a post is looked up outside the program
    ([Comment(url).json()["title"]]) and the two numbers are formatted by
    Python: both are parameters.  [staff_pick_section] returns the text it
    also prints. *)

(** The line feed of the template. *)
Definition nl : string := String "010"%char "".

Section Digest.
Import Contribution.
Variable post_title : string -> result string.
Variable str : Q -> string.

(** The body of the loop of [staff_pick_section]. *)
Definition staff_pick_body (section : string) (staff_pick : Contribution.t)
  : result string :=
  let url := url staff_pick in
  title <- post_title url ;;
  let author := author staff_pick in
  let category := category staff_pick in
  Ok (section ++
      ("[" ++ title ++ "](" ++ url ++ ") by " ++ author ++ " [" ++ category ++ "]" ++ nl ++
       "[Image (contributor profile image / image from the post)]" ++ nl ++ nl ++
       "[Paragraph: Background info on project etc.]" ++ nl ++ nl ++
       "[Paragraph: CM review, including etc.]" ++ nl ++ nl ++
       "Total payout: " ++ str (total_payout staff_pick) ++ nl ++
       "Number of votes: " ++ str (total_votes staff_pick) ++ nl ++ nl))%string.

(** [staff_pick_section], applied to the list under ["staff_picks"]. *)
Definition staff_pick_section (staff_picks : list Contribution.t) : result string :=
  for_each staff_pick_body staff_picks ""%string.

(** [weekly], on the contributions of the last week. *)
Definition weekly (contributions : list Contribution.t) : result string :=
  staff_pick_section (staff_pick_statistics contributions).
End Digest.

(** *** [WeeklyResource.get], on the contributions of the week *)

Module Report.
Record t : Type := mk {
  moderators : list ModeratorStat.t;
  categories : list Stat.t;
  projects : list Stat.t;
  staff_picks : list Contribution.t;
  task_requests : list Contribution.t
}.
End Report.

(** Lines 327-334: the five statistics, in the order of the response. *)
Definition weekly_statistics (contributions : list Contribution.t) : result Report.t :=
  moderators <- moderator_statistics contributions ;;
  categories <- category_statistics contributions ;;
  projects <- project_statistics contributions ;;
  let staff_picks := staff_pick_statistics contributions in
  let task_requests := task_request_statistics contributions in
  Ok (Report.mk moderators categories projects staff_picks task_requests).

(** [try: ... except Exception as error: LOGGER.error(error)]: an exception
    is logged and the method returns [None]. *)
Definition WeeklyResource_get (contributions : list Contribution.t) : option Report.t :=
  match weekly_statistics contributions with
  | Ok report => Some report
  | Raise _ => None
  end.

(** ** The category and project statistics, described by counting

    Not from the program: what a bucket holds, read off the group of
    contributions it stands for. *)

Section BucketSpecifications.
Import Contribution.

Definition has_task (c : Contribution.t) : bool := Str.contains "task" (category c).

(** The bucket of key [k] for the group [g], [is_task] telling its task
    requests. *)
Definition bucket_of (k : string) (is_task : Contribution.t -> bool)
    (g : list Contribution.t) : Stat.t :=
  let voted := count is_voted g in
  let not_voted := count is_not_voted g in
  let reviewed := voted + not_voted in
  let total := fold_left Qplus (map total_payout g) 0%Q in
  Stat.mk k (average (map score g)) voted not_voted (count is_unvoted g)
    (count is_task g) (Counter (map moderator g))
    (total / of_nat reviewed)%Q total reviewed
    (100 * of_nat voted / of_nat reviewed)%Q.

Definition project_statistics_spec (contributions : list Contribution.t) : list Stat.t :=
  let counted := reviewed_only contributions in
  map (fun k => bucket_of k has_task (filter (fun c => (repository c =? k)%string) counted))
    (distinct (map repository counted)).

(** The key [category_statistics] files a contribution under, when it has
    one. *)
Definition category_key (c : Contribution.t) : string :=
  match main_category (category c) with
  | Ok (k, _) => k
  | Raise _ => ""%string
  end.

Definition category_statistics_spec (contributions : list Contribution.t) : list Stat.t :=
  let counted := reviewed_only contributions in
  map (fun k => bucket_of k has_task (filter (fun c => (category_key c =? k)%string) counted))
    (distinct (map category_key counted)).

(** Every counted category that contains ["task"] contains ["task-"]. *)
Definition task_categories_prefixed (contributions : list Contribution.t) : Prop :=
  forall c, In c contributions -> status c <> "unreviewed"%string ->
            Str.contains "task" (category c) = true ->
            Str.contains "task-" (category c) = true.
End BucketSpecifications.

(** * Properties *)

(** ** The error monad and the loops *)

Lemma for_each_app {S A : Type} (body : S -> A -> result S) (l1 l2 : list A) (s : S) :
  for_each body (l1 ++ l2) s = (s' <- for_each body l1 s ;; for_each body l2 s').
Proof.
  revert s; induction l1 as [|x l1 IH]; intros s; simpl; [reflexivity|].
  destruct (body s x); simpl; auto.
Qed.

(** A loop whose body never raises is a left fold. *)
Lemma for_each_pure {S A : Type} (body : S -> A -> result S) (f : S -> A -> S)
      (l : list A) :
  (forall s x, In x l -> body s x = Ok (f s x)) ->
  forall s, for_each body l s = Ok (fold_left f l s).
Proof.
  induction l as [|x l IH]; intros Hb s; simpl; [reflexivity|].
  rewrite Hb by (left; reflexivity). simpl.
  apply IH. intros s' y Hy. apply Hb. right; exact Hy.
Qed.

Lemma fold_left_snoc_map {A B : Type} (f : A -> B) (l : list A) (acc : list B) :
  fold_left (fun r x => r ++ [f x]) l acc = acc ++ map f l.
Proof.
  revert acc; induction l as [|x l IH]; intros acc; simpl.
  - now rewrite app_nil_r.
  - rewrite IH, <- app_assoc. reflexivity.
Qed.

Lemma fold_left_filter_snoc {A : Type} (p : A -> bool) (l : list A) (acc : list A) :
  fold_left (fun r x => if p x then r ++ [x] else r) l acc = acc ++ filter p l.
Proof.
  revert acc; induction l as [|x l IH]; intros acc; simpl.
  - now rewrite app_nil_r.
  - rewrite IH. destruct (p x); [rewrite <- app_assoc|]; reflexivity.
Qed.

(** ** Strings *)

Module StrFacts.
Import Str.
Local Open Scope string_scope.

Lemma prefix_cons (a b : ascii) (s1 s2 : string) :
  prefix (String a s1) (String b s2) = (Ascii.eqb a b && prefix s1 s2)%bool.
Proof.
  simpl. destruct (ascii_dec a b) as [->|Hne].
  - now rewrite Ascii.eqb_refl.
  - apply Ascii.eqb_neq in Hne. now rewrite Hne.
Qed.

Lemma prefix_nil_r (s : string) : prefix s "" = true -> s = "".
Proof. destruct s; simpl; [reflexivity|discriminate]. Qed.

Lemma prefix_append (s r : string) : prefix s (s ++ r) = true.
Proof.
  induction s as [|a s IH]; simpl.
  - now destruct r.
  - destruct (ascii_dec a a); [exact IH|congruence].
Qed.

(** A string that starts with [a ++ b] starts with [a]. *)
Lemma prefix_weaken (a b s : string) :
  prefix (a ++ b) s = true -> prefix a s = true.
Proof.
  revert s; induction a as [|x a IH]; intros s H.
  - now destruct s.
  - destruct s as [|y s]; [discriminate H|].
    change (prefix (String x (a ++ b)) (String y s) = true) in H.
    rewrite prefix_cons in *. apply andb_true_iff in H as [-> H].
    simpl. now apply IH.
Qed.

Lemma prefix_contains (sub s : string) :
  prefix sub s = true -> contains sub s = true.
Proof. destruct s; simpl; intros H; [exact H|now rewrite H]. Qed.

Lemma contains_cons (sub : string) (c : ascii) (s : string) :
  contains sub (String c s) = (prefix sub (String c s) || contains sub s)%bool.
Proof. reflexivity. Qed.

Lemma contains_false_prefix (sub s : string) :
  contains sub s = false -> prefix sub s = false.
Proof.
  destruct s; intros H; [exact H|].
  rewrite contains_cons in H. now apply orb_false_iff in H.
Qed.

Lemma contains_weaken (a b s : string) :
  contains (a ++ b) s = true -> contains a s = true.
Proof.
  induction s as [|c s IH].
  - cbn [contains]. apply prefix_weaken.
  - rewrite !contains_cons. intros H. apply orb_true_iff in H as [H|H].
    + apply prefix_weaken in H. now rewrite H.
    + rewrite (IH H). apply orb_true_r.
Qed.

Lemma contains_append (sub pre rest : string) :
  contains sub (pre ++ sub ++ rest) = true.
Proof.
  induction pre as [|c pre IH].
  - change ("" ++ sub ++ rest) with (sub ++ rest).
    apply prefix_contains, prefix_append.
  - change (contains sub (String c (pre ++ sub ++ rest)) = true).
    rewrite contains_cons, IH. apply orb_true_r.
Qed.

Lemma append_nil_r (s : string) : s ++ "" = s.
Proof. induction s; simpl; congruence. Qed.

Lemma append_assoc (a b c : string) : (a ++ b) ++ c = a ++ b ++ c.
Proof. induction a; simpl; congruence. Qed.

Lemma prefix_extend (u v rest : string) :
  prefix u v = true -> prefix u (v ++ rest) = true.
Proof.
  revert u; induction v as [|y v IHv]; intros u Hq.
  - apply prefix_nil_r in Hq. subst u. now destruct rest.
  - destruct u as [|x u]; [reflexivity|].
    change (prefix (String x u) (String y (v ++ rest)) = true).
    rewrite prefix_cons in *. apply andb_true_iff in Hq as [-> Hq].
    simpl. now apply IHv.
Qed.

Lemma prefix_inv (sub t : string) :
  prefix sub t = true -> exists rest, t = sub ++ rest.
Proof.
  revert t; induction sub as [|a sub IH]; intros t H.
  - now exists t.
  - destruct t as [|b t]; [discriminate H|].
    rewrite prefix_cons in H. apply andb_true_iff in H as [E H].
    apply Ascii.eqb_eq in E. subst b.
    destruct (IH _ H) as [rest ->]. now exists rest.
Qed.

(** Every occurrence of a non-empty string has a leftmost one. *)
Lemma contains_leftmost (sub s : string) :
  sub <> "" ->
  contains sub s = true ->
  exists pre rest, s = pre ++ sub ++ rest /\ contains sub pre = false.
Proof.
  intros Hne. induction s as [|c s IH]; intros H.
  - cbn [contains] in H. apply prefix_nil_r in H. congruence.
  - rewrite contains_cons in H.
    destruct (prefix sub (String c s)) eqn:Hp.
    + destruct (prefix_inv _ _ Hp) as [rest Hr].
      exists "", rest. split; [exact Hr|].
      destruct sub; [congruence|reflexivity].
    + simpl in H. destruct (IH H) as (pre & rest & -> & Hn).
      exists (String c pre), rest. split; [reflexivity|].
      rewrite contains_cons, Hn, orb_false_r.
      destruct (prefix sub (String c pre)) eqn:Hq; [|reflexivity].
      apply (prefix_extend _ _ (sub ++ rest)) in Hq.
      change (String c pre ++ sub ++ rest) with (String c (pre ++ sub ++ rest)) in Hq.
      congruence.
Qed.

(** *** [split] *)

Example split_task_development :
  split "task-" "task-development" = [""; "development"].
Proof. reflexivity. Qed.

Example split_task_twice : split "task-" "task-a-task-b" = [""; "a-"; "b"].
Proof. reflexivity. Qed.

Example split_task_bare : split "task-" "task" = ["task"].
Proof. reflexivity. Qed.

Example split_task_inside : split "task-" "my-task-dev" = ["my-"; "dev"].
Proof. reflexivity. Qed.

Example split_task_only : split "task-" "task-" = [""; ""].
Proof. reflexivity. Qed.

Example split_overlap : split "aa" "aaa" = [""; "a"].
Proof. reflexivity. Qed.

Example split_empty : split "task-" "" = [""].
Proof. reflexivity. Qed.

Lemma split_go_skip (sep skipped rest cur : string) :
  split_go sep (String.length skipped) cur (skipped ++ rest) = split_go sep 0 cur rest.
Proof. induction skipped as [|c t IH]; simpl; [reflexivity|exact IH]. Qed.

(** Without an occurrence of the separator there is one piece. *)
Lemma split_go_absent (sep s cur : string) :
  contains sep s = false -> split_go sep 0 cur s = [cur ++ s].
Proof.
  revert cur; induction s as [|c s IH]; intros cur H.
  - simpl. now rewrite append_nil_r.
  - rewrite contains_cons in H. apply orb_false_iff in H as [Hp Hc].
    cbn [split_go]. rewrite Hp, (IH _ Hc), append_assoc. reflexivity.
Qed.

Lemma split_absent (sep s : string) :
  contains sep s = false -> split sep s = [s].
Proof. intros H. unfold split. now rewrite split_go_absent. Qed.

Lemma split_go_first (sep : string) (Hsep : unbordered sep) (pre rest cur : string) :
  contains sep pre = false ->
  split_go sep 0 cur (pre ++ sep ++ rest) = (cur ++ pre) :: split_go sep 0 "" rest.
Proof.
  destruct Hsep as [Hne Hov].
  revert cur; induction pre as [|c pre IH]; intros cur H.
  - rewrite append_nil_r. destruct sep as [|a sep]; [congruence|].
    change ("" ++ String a sep ++ rest) with (String a (sep ++ rest)).
    cbn [split_go].
    change (String a (sep ++ rest)) with (String a sep ++ rest).
    rewrite prefix_append. cbn [String.length]. rewrite Nat.sub_1_r. cbn [Nat.pred].
    now rewrite split_go_skip.
  - change (String c pre ++ sep ++ rest) with (String c (pre ++ sep ++ rest)).
    cbn [split_go].
    destruct (prefix sep (String c (pre ++ sep ++ rest))) eqn:Hp.
    + destruct (Hov (String c pre) rest Hp) as [Hnil|Hpre]; [discriminate Hnil|].
      apply contains_false_prefix in H. congruence.
    + rewrite contains_cons in H. apply orb_false_iff in H as [_ Hc].
      rewrite (IH _ Hc), append_assoc. reflexivity.
Qed.

Lemma split_first (sep : string) (Hsep : unbordered sep) (pre rest : string) :
  contains sep pre = false ->
  split sep (pre ++ sep ++ rest) = pre :: split sep rest.
Proof. intros H. unfold split. now rewrite split_go_first. Qed.

Lemma unbordered_task : unbordered "task-".
Proof.
  split; [discriminate|].
  intros pre rest H.
  destruct pre as [|c1 pre]; [now left|right].
  destruct pre as [|c2 pre]; [|destruct pre as [|c3 pre];
    [|destruct pre as [|c4 pre]; [|destruct pre as [|c5 pre]]]];
    cbn [append] in H; rewrite ?prefix_cons in H; rewrite ?prefix_cons;
    repeat match type of H with
           | (Ascii.eqb ?a ?b && _)%bool = true =>
               let E := fresh "E" in
               apply andb_true_iff in H as [E H];
               first [ discriminate E
                     | apply Ascii.eqb_eq in E; subst ]
           end;
    try discriminate H; try reflexivity; destruct pre; reflexivity.
Qed.

End StrFacts.

(** ** Dictionaries *)

Module DictFacts.
Import Dict.

Section Facts.
Context {V : Type}.
Implicit Types (d : Dict.t V) (k : string) (v : V).

Lemma get_set_same k v d : get k (set k v d) = Some v.
Proof.
  induction d as [|[k' v'] d IH]; simpl.
  - now rewrite String.eqb_refl.
  - destruct (String.eqb k' k) eqn:E; simpl; rewrite E; [reflexivity|exact IH].
Qed.

Lemma get_set_other k k' v d : k' <> k -> get k' (set k v d) = get k' d.
Proof.
  intros Hne. apply String.eqb_neq in Hne. rewrite String.eqb_sym in Hne.
  induction d as [|[k0 v0] d IH]; simpl.
  - now rewrite Hne.
  - destruct (String.eqb k0 k) eqn:E; simpl.
    + apply String.eqb_eq in E. subst k0. now rewrite Hne.
    + now rewrite IH.
Qed.

Lemma set_set k v v' d : set k v (set k v' d) = set k v d.
Proof.
  induction d as [|[k0 v0] d IH]; simpl.
  - now rewrite String.eqb_refl.
  - destruct (String.eqb k0 k) eqn:E; simpl; rewrite E; [reflexivity|now rewrite IH].
Qed.

Lemma set_get_id k v d : get k d = Some v -> set k v d = d.
Proof.
  induction d as [|[k0 v0] d IH]; simpl; [discriminate|].
  destruct (String.eqb k0 k) eqn:E; intros H.
  - now injection H as ->.
  - now rewrite IH.
Qed.

Lemma get_mem k d : mem k (keys d) = match get k d with Some _ => true | None => false end.
Proof.
  induction d as [|[k0 v0] d IH]; simpl; [reflexivity|].
  destruct (String.eqb k0 k); simpl; [reflexivity|exact IH].
Qed.

Lemma keys_set k v d :
  keys (set k v d) = if mem k (keys d) then keys d else keys d ++ [k].
Proof.
  induction d as [|[k0 v0] d IH]; simpl; [reflexivity|].
  destruct (String.eqb k0 k) eqn:E; simpl; [reflexivity|].
  unfold keys in *. rewrite IH. now destruct (mem k (map fst d)).
Qed.

(** [setdefault] followed by updates of the same key. *)
Lemma setdefault_set k v d : setdefault k v d = set k (default v (get k d)) d.
Proof.
  unfold setdefault. destruct (get k d) as [v'|] eqn:E; simpl; [|reflexivity].
  symmetry. now apply set_get_id.
Qed.

Lemma modify_set k f v d : modify k f (set k v d) = Ok (set k (f v) d).
Proof.
  unfold modify, item. rewrite get_set_same. simpl. now rewrite set_set.
Qed.

Lemma mem_In k l : mem k l = true <-> In k l.
Proof.
  unfold mem. rewrite existsb_exists. split.
  - intros (x & Hx & E). apply String.eqb_eq in E. now subst.
  - intros H. exists k. split; [exact H|apply String.eqb_refl].
Qed.

Lemma values_by_keys (dflt : string -> V) d :
  NoDup (keys d) ->
  values d = map (fun k => default (dflt k) (get k d)) (keys d).
Proof.
  induction d as [|[k0 v0] d IH]; simpl; intros Hnd; [reflexivity|].
  inversion Hnd as [|? ? Hnotin Hnd']; subst.
  rewrite String.eqb_refl. simpl. f_equal.
  unfold values, keys in *. rewrite (IH Hnd').
  apply map_ext_in. intros k Hk.
  destruct (String.eqb k0 k) eqn:E; [|reflexivity].
  apply String.eqb_eq in E. subst k. contradiction.
Qed.

Lemma In_values_get d v :
  In v (values d) -> NoDup (keys d) -> exists k, get k d = Some v.
Proof.
  induction d as [|[k0 v0] d IH]; simpl; [contradiction|].
  intros [->|Hin] Hnd.
  - exists k0. now rewrite String.eqb_refl.
  - inversion Hnd as [|? ? Hnotin Hnd']; subst.
    destruct (IH Hin Hnd') as [k Hk]. exists k.
    destruct (String.eqb k0 k) eqn:E; [|exact Hk].
    apply String.eqb_eq in E. subst k. exfalso. apply Hnotin.
    apply mem_In. unfold keys in *. fold (keys d). rewrite get_mem, Hk. reflexivity.
Qed.
End Facts.
End DictFacts.

(** ** Distinct elements *)

Lemma filter_filter {A : Type} (p q : A -> bool) (l : list A) :
  filter p (filter q l) = filter (fun x => q x && p x) l.
Proof.
  induction l as [|x l IH]; simpl; [reflexivity|].
  destruct (q x); simpl; [destruct (p x)|]; now rewrite IH.
Qed.

Lemma In_distinct (x : string) (l : list string) : In x (distinct l) <-> In x l.
Proof.
  induction l as [|y l IH]; simpl; [reflexivity|].
  rewrite filter_In, IH. split.
  - intros [H|[H _]]; auto.
  - intros [H|H]; [now left|].
    destruct (String.eqb x y) eqn:E.
    + apply String.eqb_eq in E. now left.
    + right. now split.
Qed.

Lemma NoDup_distinct (l : list string) : NoDup (distinct l).
Proof.
  induction l as [|y l IH]; simpl; constructor.
  - rewrite filter_In, String.eqb_refl. now intros [_ H].
  - now apply NoDup_filter.
Qed.

(** ** Grouping loops *)

Section GroupByFacts.
Context {E V : Type}.
Variable key : E -> string.
Variable init : string -> V.
Variable upd : E -> V -> V.

Let step := group_step key init upd.

Lemma group_step_get_same (d : Dict.t V) (e : E) :
  Dict.get (key e) (step d e) = Some (upd e (default (init (key e)) (Dict.get (key e) d))).
Proof. apply DictFacts.get_set_same. Qed.

Lemma group_step_get_other (d : Dict.t V) (e : E) (k : string) :
  k <> key e -> Dict.get k (step d e) = Dict.get k d.
Proof. intros H. now apply DictFacts.get_set_other. Qed.

(** The value found under [k] after the loop is the one accumulated from
    the members of [k], starting from what was there before. *)
Lemma group_get (k : string) (es : list E) (d : Dict.t V) :
  default (init k) (Dict.get k (fold_left step es d)) =
  fold_left (fun v e => upd e v) (members key k es) (default (init k) (Dict.get k d)).
Proof.
  revert d; induction es as [|e es IH]; intros d; simpl; [reflexivity|].
  rewrite IH. unfold members in *.
  destruct (String.eqb (key e) k) eqn:Ek; simpl.
  - apply String.eqb_eq in Ek. subst k. now rewrite group_step_get_same.
  - apply String.eqb_neq in Ek. rewrite group_step_get_other by congruence. reflexivity.
Qed.

Lemma group_keys (es : list E) (d : Dict.t V) :
  Dict.keys (fold_left step es d) =
  Dict.keys d ++ filter (fun k => negb (mem k (Dict.keys d))) (distinct (map key es)).
Proof.
  revert d; induction es as [|e es IH]; intros d; simpl.
  - now rewrite app_nil_r.
  - rewrite IH. unfold step at 1 2, group_step. rewrite DictFacts.keys_set.
    rewrite filter_filter.
    destruct (mem (key e) (Dict.keys d)) eqn:Hm; simpl.
    + f_equal. apply filter_ext. intros k.
      destruct (String.eqb k (key e)) eqn:Ek; simpl; [|reflexivity].
      apply String.eqb_eq in Ek. subst k. now rewrite Hm.
    + rewrite <- app_assoc. simpl. do 2 f_equal. apply filter_ext. intros k.
      unfold mem. rewrite existsb_app. simpl. rewrite orb_false_r.
      rewrite negb_orb, andb_comm. f_equal. f_equal. apply String.eqb_sym.
Qed.

Lemma group_NoDup (es : list E) : NoDup (Dict.keys (fold_left step es [])).
Proof.
  rewrite group_keys. simpl. apply NoDup_filter, NoDup_distinct.
Qed.

(** The values of the dictionary after the loop, in its order: one per
    distinct key, in first-seen order. *)
Lemma group_values (es : list E) :
  Dict.values (fold_left step es []) = grouped key init upd es.
Proof.
  rewrite (DictFacts.values_by_keys init) by apply group_NoDup.
  rewrite group_keys. simpl.
  assert (Hall : forall l : list string, filter (fun _ => true) l = l).
  { induction l; simpl; congruence. }
  rewrite Hall. unfold grouped. apply map_ext. intros k.
  rewrite group_get. reflexivity.
Qed.

Lemma members_nonempty (es : list E) (k : string) :
  In k (distinct (map key es)) -> members key k es <> [].
Proof.
  rewrite In_distinct, in_map_iff. intros (e & <- & He) Hnil.
  assert (Hin : In e (members key (key e) es)).
  { apply filter_In. split; [exact He|apply String.eqb_refl]. }
  rewrite Hnil in Hin. exact Hin.
Qed.

Lemma In_grouped (es : list E) (v : V) :
  In v (grouped key init upd es) ->
  exists k, In k (map key es) /\ members key k es <> [] /\ v = accumulate key init upd k es.
Proof.
  unfold grouped. rewrite in_map_iff. intros (k & <- & Hk).
  exists k. split; [now apply In_distinct|]. split; [now apply members_nonempty|reflexivity].
Qed.

(** A property of the initial value that every update keeps holds of every
    accumulated value. *)
Lemma accumulate_invariant (P : V -> Prop) (k : string) (es : list E) :
  P (init k) -> (forall e v, P v -> P (upd e v)) -> P (accumulate key init upd k es).
Proof.
  intros H0 Hstep. unfold accumulate.
  generalize (members key k es) (init k) H0. intros l.
  induction l as [|e l IH]; intros v Hv; simpl; [exact Hv|].
  apply IH, Hstep, Hv.
Qed.

End GroupByFacts.

(** ** The loops of the reducers as grouping loops *)

Section ReducerFacts.
Import Contribution.

Lemma for_each_filter {S A : Type} (body : S -> A -> result S) (p : A -> bool)
      (f : S -> A -> S) (l : list A) :
  (forall s x, body s x = Ok (if p x then f s x else s)) ->
  forall s, for_each body l s = Ok (fold_left f (filter p l) s).
Proof.
  intros Hb. induction l as [|x l IH]; intros s; simpl; [reflexivity|].
  rewrite Hb. simpl. destruct (p x); simpl; apply IH.
Qed.

Lemma moderator_body_step (d : Dict.t ModeratorAcc.t) (c : Contribution.t) :
  moderator_body d c =
  Ok (if negb (status c =? "unreviewed")%string && negb (moderator c =? "BANNED")%string
      then group_step moderator moderator_init moderator_upd d c
      else d).
Proof.
  unfold moderator_body.
  destruct (status c =? "unreviewed")%string; simpl; [reflexivity|].
  destruct (moderator c =? "BANNED")%string; simpl; [reflexivity|].
  rewrite DictFacts.setdefault_set, DictFacts.modify_set. simpl.
  rewrite DictFacts.modify_set. reflexivity.
Qed.

Lemma moderator_loop (cs : list Contribution.t) (d : Dict.t ModeratorAcc.t) :
  for_each moderator_body cs d =
  Ok (fold_left (group_step moderator moderator_init moderator_upd) (moderator_kept cs) d).
Proof. apply for_each_filter. intros s x. apply moderator_body_step. Qed.

Lemma category_body_step (d : Dict.t Acc.t) (c : Contribution.t) :
  category_body d c =
  if (status c =? "unreviewed")%string then Ok d
  else ck <- main_category (category c) ;;
       Ok (group_step ev_key Acc.fresh ev_tally d (fst ck, snd ck, c)).
Proof.
  unfold category_body.
  destruct (status c =? "unreviewed")%string; [reflexivity|].
  destruct (main_category (category c)) as [[k t]|e]; simpl; [|reflexivity].
  rewrite DictFacts.setdefault_set.
  unfold group_step, ev_tally, ev_key, ev_task, ev_contribution, tally, count_vote. simpl.
  destruct (status c =? "unvoted")%string; [|destruct (voted_on c)];
    destruct t; simpl; rewrite ?DictFacts.modify_set; simpl;
    repeat (rewrite DictFacts.modify_set; simpl); reflexivity.
Qed.

Lemma project_body_step (d : Dict.t Acc.t) (c : Contribution.t) :
  project_body d c =
  Ok (if negb (status c =? "unreviewed")%string
      then group_step ev_key Acc.fresh ev_tally d (project_event c)
      else d).
Proof.
  unfold project_body.
  destruct (status c =? "unreviewed")%string; [reflexivity|]. simpl.
  rewrite DictFacts.setdefault_set.
  unfold group_step, ev_tally, ev_key, ev_task, ev_contribution, tally, count_vote,
    project_event. simpl.
  destruct (status c =? "unvoted")%string; [|destruct (voted_on c)];
    destruct (Str.contains "task" (category c)); simpl;
    repeat (rewrite DictFacts.modify_set; simpl); reflexivity.
Qed.

Lemma category_loop (cs : list Contribution.t) (d : Dict.t Acc.t) :
  for_each category_body cs d =
  (es <- category_events cs ;; Ok (fold_left (group_step ev_key Acc.fresh ev_tally) es d)).
Proof.
  revert d; induction cs as [|c cs IH]; intros d; simpl; [reflexivity|].
  rewrite category_body_step.
  destruct (status c =? "unreviewed")%string; simpl; [apply IH|].
  destruct (main_category (category c)) as [[k t]|e]; simpl; [|reflexivity].
  rewrite IH. destruct (category_events cs); reflexivity.
Qed.

Lemma fold_left_map {A B C : Type} (f : C -> B -> C) (g : A -> B) (l : list A) (s : C) :
  fold_left f (map g l) s = fold_left (fun s x => f s (g x)) l s.
Proof. revert s; induction l; intros s; simpl; auto. Qed.

Lemma project_loop (cs : list Contribution.t) (d : Dict.t Acc.t) :
  for_each project_body cs d =
  Ok (fold_left (group_step ev_key Acc.fresh ev_tally) (project_events cs) d).
Proof.
  unfold project_events, reviewed_only. rewrite fold_left_map.
  apply for_each_filter with
    (p := fun c => negb (status c =? "unreviewed")%string)
    (f := fun s x => group_step ev_key Acc.fresh ev_tally s (project_event x)).
  intros s x. apply project_body_step.
Qed.

End ReducerFacts.

(** ** Accumulated values *)

Section AccumulatedFacts.
Import Contribution.

Lemma count_cons {A : Type} (p : A -> bool) (x : A) (l : list A) :
  count p (x :: l) = (if p x then 1 else 0) + count p l.
Proof. unfold count. simpl. now destruct (p x). Qed.

Lemma count_le_length {A : Type} (p : A -> bool) (l : list A) : count p l <= List.length l.
Proof. apply filter_length_le. Qed.

Lemma count_pos {A : Type} (p : A -> bool) (x : A) (l : list A) :
  In x l -> p x = true -> 1 <= count p l.
Proof.
  intros Hin Hp. induction l as [|y l IH]; [contradiction|].
  rewrite count_cons. destruct Hin as [->|Hin]; [rewrite Hp; lia|].
  specialize (IH Hin). lia.
Qed.

(** The fields of the value accumulated from a list of events. *)
Lemma tally_fold (l : list event) (v : Acc.t) :
  let w := fold_left (fun v e => ev_tally e v) l v in
  Acc.key w = Acc.key v /\
  Acc.voted w = Acc.voted v + count (fun e => is_voted (ev_contribution e)) l /\
  Acc.not_voted w = Acc.not_voted v + count (fun e => is_not_voted (ev_contribution e)) l /\
  Acc.unvoted w = Acc.unvoted v + count (fun e => is_unvoted (ev_contribution e)) l /\
  Acc.task_requests w = Acc.task_requests v + count ev_task l /\
  Acc.moderators w = Acc.moderators v ++ map (fun e => moderator (ev_contribution e)) l /\
  Acc.average_score w = Acc.average_score v ++ map (fun e => score (ev_contribution e)) l /\
  Acc.total_payout w =
    fold_left Qplus (map (fun e => total_payout (ev_contribution e)) l) (Acc.total_payout v) /\
  Acc.average_payout w = Acc.average_payout v.
Proof.
  revert v; induction l as [|e l IH]; intros v; simpl.
  - unfold count. simpl. rewrite !app_nil_r, !Nat.add_0_r. repeat split.
  - destruct (IH (ev_tally e v)) as (Hk & Hv & Hn & Hu & Ht & Hm & Hs & Hp & Ha).
    rewrite Hk, Hv, Hn, Hu, Ht, Hm, Hs, Hp, Ha. rewrite !count_cons.
    unfold ev_tally, tally, count_vote, is_voted, is_not_voted, is_unvoted.
    destruct e as [[k t] c]. unfold ev_task, ev_contribution. simpl.
    destruct (status c =? "unvoted")%string; [|destruct (voted_on c)];
      destruct t; simpl; rewrite <- ?app_assoc; simpl;
      repeat split; solve [lia | reflexivity].
Qed.

(** Each event adds one to [voted] or to [not_voted], never to both. *)
Lemma vote_partition (c : Contribution.t) :
  (if is_voted c then 1 else 0) + (if is_not_voted c then 1 else 0) = 1.
Proof.
  unfold is_voted, is_not_voted, is_unvoted.
  destruct (status c =? "unvoted")%string, (voted_on c); reflexivity.
Qed.

Lemma count_vote_partition (l : list event) :
  count (fun e => is_voted (ev_contribution e)) l +
  count (fun e => is_not_voted (ev_contribution e)) l = List.length l.
Proof.
  induction l as [|e l IH]; [reflexivity|].
  rewrite !count_cons. simpl. pose proof (vote_partition (ev_contribution e)). lia.
Qed.

Lemma count_unvoted_le (l : list event) :
  count (fun e => is_unvoted (ev_contribution e)) l <=
  count (fun e => is_not_voted (ev_contribution e)) l.
Proof.
  induction l as [|e l IH]; [reflexivity|].
  rewrite !count_cons. unfold is_not_voted in *.
  destruct (is_unvoted (ev_contribution e)); simpl; [lia|].
  destruct (negb (voted_on (ev_contribution e))); lia.
Qed.

(** The fields of the value accumulated under a key. *)
Lemma accumulate_fields (k : string) (es : list event) :
  let g := members ev_key k es in
  let w := accumulate ev_key Acc.fresh ev_tally k es in
  Acc.key w = k /\
  Acc.voted w = count (fun e => is_voted (ev_contribution e)) g /\
  Acc.not_voted w = count (fun e => is_not_voted (ev_contribution e)) g /\
  Acc.unvoted w = count (fun e => is_unvoted (ev_contribution e)) g /\
  Acc.task_requests w = count ev_task g /\
  Acc.moderators w = map (fun e => moderator (ev_contribution e)) g /\
  Acc.voted w + Acc.not_voted w = List.length g.
Proof.
  intros g w. unfold w, accumulate. fold g.
  destruct (tally_fold g (Acc.fresh k)) as (Hk & Hv & Hn & Hu & Ht & Hm & _).
  simpl in *. rewrite Hk, Hv, Hn, Hu, Ht, Hm. repeat split.
  apply count_vote_partition.
Qed.

(** *** The second loop *)

Lemma of_nat_nonzero (n : nat) : 1 <= n -> Qeq_bool (of_nat n) 0 = false.
Proof.
  intros Hn. destruct (Qeq_bool (of_nat n) 0) eqn:E; [|reflexivity].
  apply Qeq_bool_iff in E. unfold of_nat, Qeq in E. simpl in E. lia.
Qed.

Lemma finish_reviewed (v : Acc.t) :
  1 <= Acc.voted v + Acc.not_voted v ->
  category_finish v = Ok (stat_of v) /\ project_finish v = Ok (stat_of v).
Proof.
  intros H. unfold category_finish, project_finish, percentage, truediv.
  rewrite (of_nat_nonzero _ H). simpl. split; reflexivity.
Qed.

Lemma finish_unreviewed (v : Acc.t) :
  Acc.voted v + Acc.not_voted v = 0 ->
  category_finish v = Raise ZeroDivisionError /\ project_finish v = Raise ZeroDivisionError.
Proof.
  intros H. unfold category_finish, project_finish, truediv. rewrite H. split; reflexivity.
Qed.

Lemma finish_loop (finish : Acc.t -> result Stat.t) (vs : list Acc.t) :
  (forall v, In v vs -> finish v = Ok (stat_of v)) ->
  forall acc,
    for_each (fun r value => value <- finish value ;; Ok (r ++ [value])) vs acc =
    Ok (acc ++ map stat_of vs).
Proof.
  induction vs as [|v vs IH]; intros Hf acc; simpl.
  - now rewrite app_nil_r.
  - rewrite Hf by (now left). simpl. rewrite IH by (intros; apply Hf; now right).
    now rewrite <- app_assoc.
Qed.

Lemma grouped_reviewed (es : list event) (v : Acc.t) :
  In v (grouped ev_key Acc.fresh ev_tally es) -> 1 <= Acc.voted v + Acc.not_voted v.
Proof.
  intros Hin. apply In_grouped in Hin as (k & _ & Hne & ->).
  destruct (accumulate_fields k es) as (_ & _ & _ & _ & _ & _ & ->).
  destruct (members ev_key k es); [congruence|simpl; lia].
Qed.

(** *** The reducers, in closed form *)

Lemma project_statistics_closed (cs : list Contribution.t) :
  project_statistics cs =
  Ok (map stat_of (grouped ev_key Acc.fresh ev_tally (project_events cs))).
Proof.
  unfold project_statistics. rewrite project_loop. simpl.
  rewrite group_values. apply finish_loop.
  intros v Hv. apply grouped_reviewed in Hv. now apply finish_reviewed.
Qed.

Lemma category_statistics_closed (cs : list Contribution.t) :
  category_statistics cs =
  (es <- category_events cs ;; Ok (map stat_of (grouped ev_key Acc.fresh ev_tally es))).
Proof.
  unfold category_statistics. rewrite category_loop.
  destruct (category_events cs) as [es|e]; simpl; [|reflexivity].
  rewrite group_values. apply finish_loop.
  intros v Hv. apply grouped_reviewed in Hv. now apply finish_reviewed.
Qed.

End AccumulatedFacts.

(** ** The two filters *)

Lemma staff_pick_loop (contributions acc : list Contribution.t) :
  fold_left
    (fun staff_picks contribution =>
       if negb (Contribution.staff_picked contribution) then staff_picks
       else staff_picks ++ [contribution])
    contributions acc
  = acc ++ filter Contribution.staff_picked contributions.
Proof.
  revert acc; induction contributions as [|c cs IH]; intros acc; simpl.
  - now rewrite app_nil_r.
  - rewrite IH. destruct (Contribution.staff_picked c); simpl;
      [rewrite <- app_assoc|]; reflexivity.
Qed.

(** C8. [staff_pick_statistics] returns exactly the contributions with
    [staff_picked] true, unchanged and in their original order. *)
Theorem staff_pick_filter (contributions : list Contribution.t) :
  staff_pick_statistics contributions = filter Contribution.staff_picked contributions.
Proof. unfold staff_pick_statistics. now rewrite staff_pick_loop. Qed.

(** Unreviewed contributions leave the dictionary of [category_statistics]
    as it is. *)
Lemma category_body_unreviewed (d : Dict.t Acc.t) (c : Contribution.t) :
  Contribution.status c = "unreviewed" -> category_body d c = Ok d.
Proof. intros H. unfold category_body. now rewrite H. Qed.

Lemma category_statistics_skip (c : Contribution.t) (l1 l2 : list Contribution.t) :
  Contribution.status c = "unreviewed" ->
  category_statistics (l1 ++ c :: l2) = category_statistics (l1 ++ l2).
Proof.
  intros H. unfold category_statistics. rewrite !for_each_app.
  destruct (for_each category_body l1 []) as [d|e]; simpl; [|reflexivity].
  now rewrite category_body_unreviewed.
Qed.

(** C7. [task_request_statistics] returns exactly the contributions whose
    category contains ["task"], whatever their status; an unreviewed
    contribution of category ["task-ideas"] is in its output, and has no
    part in the output of [category_statistics]: the output is the same
    without it, and empty when it is the only contribution. *)
Theorem task_request_filter :
  (forall contributions,
      task_request_statistics contributions =
      filter (fun c => Str.contains "task" (Contribution.category c)) contributions) /\
  (forall (c : Contribution.t) (l1 l2 : list Contribution.t),
      Contribution.status c = "unreviewed" ->
      Contribution.category c = "task-ideas" ->
      In c (task_request_statistics (l1 ++ c :: l2)) /\
      category_statistics (l1 ++ c :: l2) = category_statistics (l1 ++ l2) /\
      category_statistics [c] = Ok []).
Proof.
  assert (Hf : forall contributions,
             task_request_statistics contributions =
             filter (fun c => Str.contains "task" (Contribution.category c)) contributions).
  { intros cs. unfold task_request_statistics.
    now rewrite (fold_left_filter_snoc
                   (fun c => Str.contains "task" (Contribution.category c)) cs []). }
  split; [exact Hf|].
  intros c l1 l2 Hs Hc. split; [|split].
  - rewrite Hf. apply filter_In. split.
    + apply in_or_app. right. now left.
    + now rewrite Hc.
  - now apply category_statistics_skip.
  - apply (category_statistics_skip c [] []) in Hs. exact Hs.
Qed.

Lemma task_request_filter_witness :
  let c := Sample.task_ideas_unreviewed in
  In c (task_request_statistics ([] ++ c :: [])) /\
  category_statistics ([] ++ c :: []) = category_statistics ([] ++ []) /\
  category_statistics [c] = Ok [].
Proof.
  intros c. apply (proj2 task_request_filter c [] []); reflexivity.
Defined.

(** ** Buckets of the category and project statistics *)

Section BucketFacts.
Import Contribution.

Lemma main_category_error (s : string) (e : exn) :
  main_category s = Raise e -> e = IndexError.
Proof.
  unfold main_category, getitem.
  destruct (Str.contains "task" s); [|discriminate].
  destruct (nth_error (Str.split "task-" s) 1); simpl; [discriminate|congruence].
Qed.

Lemma category_events_error (cs : list Contribution.t) (e : exn) :
  category_events cs = Raise e -> e = IndexError.
Proof.
  induction cs as [|c cs IH]; simpl; [discriminate|].
  destruct (status c =? "unreviewed")%string; [exact IH|].
  destruct (main_category (category c)) as [ck|e'] eqn:Hm; simpl.
  - destruct (category_events cs) as [es|e'']; simpl; [discriminate|].
    intros H. injection H as <-. now apply IH.
  - intros H. injection H as <-. now apply main_category_error in Hm.
Qed.

(** Every bucket either reducer returns is the final form of the value
    accumulated from a non-empty group of counted contributions. *)
Lemma statistics_buckets (cs : list Contribution.t) (out : list Stat.t) (b : Stat.t) :
  category_statistics cs = Ok out \/ project_statistics cs = Ok out ->
  In b out ->
  exists es k,
    members ev_key k es <> [] /\
    b = stat_of (accumulate ev_key Acc.fresh ev_tally k es).
Proof.
  intros H Hb.
  assert (Hes : exists es, out = map stat_of (grouped ev_key Acc.fresh ev_tally es)).
  { destruct H as [H|H].
    - rewrite category_statistics_closed in H.
      destruct (category_events cs) as [es|e]; simpl in H; [|discriminate].
      exists es. congruence.
    - rewrite project_statistics_closed in H. eexists. injection H as <-. reflexivity. }
  destruct Hes as [es ->].
  apply in_map_iff in Hb as (v & <- & Hv).
  apply In_grouped in Hv as (k & _ & Hne & ->).
  now exists es, k.
Qed.

(** C2. Every bucket of [category_statistics] and of [project_statistics]
    has [reviewed = voted + not_voted] and [unvoted <= not_voted]. *)
Theorem bucket_invariant (cs : list Contribution.t) (out : list Stat.t) (b : Stat.t) :
  category_statistics cs = Ok out \/ project_statistics cs = Ok out ->
  In b out ->
  Stat.reviewed b = Stat.voted b + Stat.not_voted b /\
  Stat.unvoted b <= Stat.not_voted b.
Proof.
  intros H Hb. destruct (statistics_buckets cs out b H Hb) as (es & k & _ & ->).
  split; [reflexivity|]. simpl.
  destruct (accumulate_fields k es) as (_ & _ & -> & -> & _).
  apply count_unvoted_le.
Qed.

(** C4. [category_statistics] raises [IndexError] on every input with a
    contribution that is not unreviewed and whose category contains ["task"]
    but not ["task-"]. *)
Theorem category_statistics_index_error (cs : list Contribution.t) (c : Contribution.t) :
  In c cs ->
  status c <> "unreviewed" ->
  Str.contains "task" (category c) = true ->
  Str.contains "task-" (category c) = false ->
  category_statistics cs = Raise IndexError.
Proof.
  intros Hin Hs Ht Hd. rewrite category_statistics_closed.
  assert (Hm : main_category (category c) = Raise IndexError).
  { unfold main_category. rewrite Ht, (StrFacts.split_absent _ _ Hd). reflexivity. }
  assert (He : category_events cs = Raise IndexError).
  { induction cs as [|c' cs IH]; [contradiction|]. simpl.
    destruct (status c' =? "unreviewed")%string eqn:Es.
    - destruct Hin as [->|Hin]; [|now apply IH].
      apply String.eqb_eq in Es. contradiction.
    - destruct (main_category (category c')) as [ck|e] eqn:Hm'; simpl.
      + destruct Hin as [->|Hin]; [congruence|]. now rewrite (IH Hin).
      + now apply main_category_error in Hm' as ->. }
  now rewrite He.
Qed.

End BucketFacts.

(** *** Instances *)

Lemma bucket_invariant_witness :
  exists out b,
    category_statistics [Sample.task_dev; Sample.banned_development] = Ok out /\
    In b out /\
    Stat.reviewed b = Stat.voted b + Stat.not_voted b /\
    Stat.unvoted b <= Stat.not_voted b.
Proof.
  eexists. eexists. split; [reflexivity|]. split; [right; left; reflexivity|].
  eapply (bucket_invariant [Sample.task_dev; Sample.banned_development]).
  - left. reflexivity.
  - right; left; reflexivity.
Defined.

Lemma category_statistics_index_error_witness :
  category_statistics [Sample.task_dev; Sample.task_bare] = Raise IndexError.
Proof.
  apply (category_statistics_index_error _ Sample.task_bare).
  - right; left; reflexivity.
  - discriminate.
  - reflexivity.
  - reflexivity.
Defined.

(** ** One iteration of the category and project loops *)

Section IterationFacts.
Import Contribution.

Lemma category_body_counted (d : Dict.t Acc.t) (c : Contribution.t) (k : string) (t : bool) :
  status c <> "unreviewed" ->
  main_category (category c) = Ok (k, t) ->
  category_body d c =
  Ok (Dict.set k (tally t c (default (Acc.fresh k) (Dict.get k d))) d).
Proof.
  intros Hs Hm. rewrite category_body_step, Hm.
  apply String.eqb_neq in Hs. rewrite Hs. reflexivity.
Qed.

Lemma project_body_counted (d : Dict.t Acc.t) (c : Contribution.t) :
  status c <> "unreviewed" ->
  project_body d c =
  Ok (Dict.set (repository c)
        (tally (Str.contains "task" (category c)) c
           (default (Acc.fresh (repository c)) (Dict.get (repository c) d))) d).
Proof.
  intros Hs. rewrite project_body_step.
  apply String.eqb_neq in Hs. rewrite Hs. reflexivity.
Qed.

Lemma tally_votes (t : bool) (c : Contribution.t) (old : Acc.t) :
  let new := tally t c old in
  (status c = "unvoted" ->
   Acc.unvoted new = Acc.unvoted old + 1 /\
   Acc.not_voted new = Acc.not_voted old + 1 /\
   Acc.voted new = Acc.voted old) /\
  (status c <> "unvoted" -> voted_on c = true ->
   Acc.voted new = Acc.voted old + 1 /\
   Acc.not_voted new = Acc.not_voted old /\
   Acc.unvoted new = Acc.unvoted old) /\
  (status c <> "unvoted" -> voted_on c = false ->
   Acc.not_voted new = Acc.not_voted old + 1 /\
   Acc.voted new = Acc.voted old /\
   Acc.unvoted new = Acc.unvoted old).
Proof.
  unfold tally, count_vote.
  destruct (status c =? "unvoted")%string eqn:Es;
    [apply String.eqb_eq in Es|apply String.eqb_neq in Es];
    destruct (voted_on c); destruct t; simpl;
    repeat split; intros; solve [reflexivity | congruence].
Qed.

Lemma tally_task_requests (t : bool) (c : Contribution.t) (old : Acc.t) :
  let new := tally t c old in
  Acc.task_requests new = Acc.task_requests old + (if t then 1 else 0) /\
  Acc.voted new + Acc.not_voted new = Acc.voted old + Acc.not_voted old + 1.
Proof.
  unfold tally, count_vote.
  destruct (status c =? "unvoted")%string; destruct (voted_on c); destruct t; simpl; lia.
Qed.

(** C6. In [category_statistics] and in [project_statistics], a counted
    contribution moves the vote counters of its group by exactly one
    outcome: [unvoted] and [not_voted] when its status is ["unvoted"];
    otherwise [voted] when [voted_on] is true; otherwise [not_voted]. *)
Theorem vote_accounting (d : Dict.t Acc.t) (c : Contribution.t) :
  status c <> "unreviewed" ->
  (forall k t, main_category (category c) = Ok (k, t) ->
               accounts_vote category_body d c k) /\
  accounts_vote project_body d c (repository c).
Proof.
  intros Hs. split.
  - intros k t Hm. eexists. eexists.
    split; [apply (category_body_counted d c k t Hs Hm)|].
    split; [apply DictFacts.get_set_same|].
    split; [apply tally_votes|].
    intros k' Hk. now apply DictFacts.get_set_other.
  - eexists. eexists.
    split; [apply (project_body_counted d c Hs)|].
    split; [apply DictFacts.get_set_same|].
    split; [apply tally_votes|].
    intros k' Hk. now apply DictFacts.get_set_other.
Qed.

Lemma vote_accounting_witness :
  Contribution.status Sample.banned_development <> "unreviewed" /\
  accounts_vote category_body [] Sample.banned_development "development" /\
  accounts_vote project_body [] Sample.banned_development "utopian.rocks".
Proof.
  assert (Hs : Contribution.status Sample.banned_development <> "unreviewed")
    by discriminate.
  split; [exact Hs|]. split.
  - exact (proj1 (vote_accounting [] Sample.banned_development Hs)
             "development" false eq_refl).
  - exact (proj2 (vote_accounting [] Sample.banned_development Hs)).
Defined.

End IterationFacts.

(** ** The category a contribution is counted under *)

Section CategoryKeyFacts.
Import Contribution.
Local Open Scope string_scope.

Lemma main_category_plain (s : string) :
  Str.contains "task" s = false -> main_category s = Ok (s, false).
Proof. intros H. unfold main_category. now rewrite H. Qed.

Lemma contains_task (pre tail : string) :
  Str.contains "task" (pre ++ "task-" ++ tail) = true.
Proof.
  apply (StrFacts.contains_weaken "task" "-"). apply StrFacts.contains_append.
Qed.

(** With a first ["task-"] after [pre], the key is the first piece of what
    follows it. *)
Lemma main_category_task (pre tail : string) :
  Str.contains "task-" pre = false ->
  main_category (pre ++ "task-" ++ tail) =
  (k <- getitem (Str.split "task-" tail) 0 ;; Ok (k, true)).
Proof.
  intros Hpre. unfold main_category.
  rewrite contains_task, (StrFacts.split_first _ StrFacts.unbordered_task _ _ Hpre).
  reflexivity.
Qed.

Lemma main_category_once (pre post : string) :
  Str.contains "task-" pre = false ->
  Str.contains "task-" post = false ->
  main_category (pre ++ "task-" ++ post) = Ok (post, true).
Proof.
  intros Hpre Hpost. rewrite (main_category_task _ _ Hpre).
  now rewrite (StrFacts.split_absent _ _ Hpost).
Qed.

Lemma main_category_again (pre mid rest : string) :
  Str.contains "task-" pre = false ->
  Str.contains "task-" mid = false ->
  main_category (pre ++ "task-" ++ mid ++ "task-" ++ rest) = Ok (mid, true).
Proof.
  intros Hpre Hmid. rewrite (main_category_task _ _ Hpre).
  now rewrite (StrFacts.split_first _ StrFacts.unbordered_task _ _ Hmid).
Qed.

Lemma files_under_counted (d : Dict.t Acc.t) (c : Contribution.t) (k : string) (t : bool) :
  status c <> "unreviewed" ->
  main_category (category c) = Ok (k, t) ->
  files_under d c k (if t then 1 else 0).
Proof.
  intros Hs Hm. eexists. eexists.
  split; [apply (category_body_counted d c k t Hs Hm)|].
  split; [apply DictFacts.get_set_same|].
  split; [apply tally_task_requests|].
  intros k' Hk. now apply DictFacts.get_set_other.
Qed.

Lemma key_after_task_exists (s : string) :
  Str.contains "task-" s = true -> exists k, key_after_task s k.
Proof.
  intros H.
  destruct (StrFacts.contains_leftmost "task-" s) as (pre & tail & -> & Hpre);
    [discriminate|exact H|].
  destruct (Str.contains "task-" tail) eqn:Ht.
  - destruct (StrFacts.contains_leftmost "task-" tail) as (mid & rest & -> & Hmid);
      [discriminate|exact Ht|].
    exists mid, pre, (mid ++ "task-" ++ rest). repeat split; [exact Hpre|].
    right. now exists rest.
  - exists tail, pre, tail. repeat split; [exact Hpre|]. now left.
Qed.

Lemma main_category_key (s k : string) :
  key_after_task s k -> main_category s = Ok (k, true).
Proof.
  intros (pre & tail & -> & Hpre & [[Ht ->]|(rest & -> & Hk)]).
  - now apply main_category_once.
  - now apply main_category_again.
Qed.

(** C1, as amended.  A counted contribution whose category contains
    ["task-"] is filed under the text between the first ["task-"] and the
    next one (all the text after the first when there is no other) and adds
    one to the task requests of that group; a counted contribution whose
    category does not contain ["task"] is filed under its category, with no
    task request.  A reviewed, voted-on contribution of category
    ["task-dev"] alone makes one bucket, ["dev"], with one task request and
    one vote. *)
Theorem task_category_grouping :
  (forall (d : Dict.t Acc.t) (c : Contribution.t),
      status c <> "unreviewed" ->
      (Str.contains "task-" (category c) = true ->
       exists k, key_after_task (category c) k) /\
      (forall k, key_after_task (category c) k -> files_under d c k 1) /\
      (Str.contains "task" (category c) = false ->
       files_under d c (category c) 0)) /\
  (forall c : Contribution.t,
      status c = "reviewed" ->
      category c = "task-dev" ->
      voted_on c = true ->
      exists b,
        category_statistics [c] = Ok [b] /\
        Stat.key b = "dev" /\ Stat.task_requests b = 1 /\ Stat.voted b = 1).
Proof.
  split.
  - intros d c Hs. split; [|split].
    + apply key_after_task_exists.
    + intros k Hk.
      apply (files_under_counted d c k true Hs).
      now apply main_category_key.
    + intros Hc.
      apply (files_under_counted d c (category c) false Hs).
      now apply main_category_plain.
  - intros c Hs Hc Hv. rewrite category_statistics_closed.
    cbn [category_events]. rewrite Hs, Hc. cbn.
    eexists. split; [reflexivity|]. cbn.
    unfold count_vote. rewrite Hs, Hv. cbn. repeat split.
Qed.

Lemma task_category_grouping_witness :
  files_under [] Sample.task_dev "dev" 1 /\
  files_under [] Sample.task_twice "a-" 1 /\
  files_under [] Sample.banned_development "development" 0 /\
  exists b,
    category_statistics [Sample.task_dev] = Ok [b] /\
    Stat.key b = "dev" /\ Stat.task_requests b = 1 /\ Stat.voted b = 1.
Proof.
  split; [|split; [|split]].
  - apply (proj1 (proj2 (proj1 task_category_grouping [] Sample.task_dev
                           ltac:(discriminate)))).
    exists "", "dev". repeat split. left. split; reflexivity.
  - apply (proj1 (proj2 (proj1 task_category_grouping [] Sample.task_twice
                           ltac:(discriminate)))).
    exists "", "a-task-b". repeat split. right. exists "b". split; reflexivity.
  - apply (proj2 (proj2 (proj1 task_category_grouping [] Sample.banned_development
                           ltac:(discriminate)))).
    reflexivity.
  - apply (proj2 task_category_grouping Sample.task_dev); reflexivity.
Defined.

(** C1, as stated, fails in two ways.  The category ["task-a-task-b"] is
    filed under ["a-"], not under the text after its first ["task-"],
    ["a-task-b"]; and the category ["task"], which does not contain
    ["task-"], is not filed under ["task"]: the reducer raises. *)
Lemma task_category_grouping_counterexample :
  (category Sample.task_twice = "task-" ++ "a-task-b" /\
   keys_of (category_statistics [Sample.task_twice]) = Ok ["a-"] /\
   "a-" <> "a-task-b") /\
  (status Sample.task_bare <> "unreviewed" /\
   Str.contains "task-" (category Sample.task_bare) = false /\
   category_statistics [Sample.task_bare] = Raise IndexError).
Proof.
  repeat split; try reflexivity; discriminate.
Qed.

End CategoryKeyFacts.

(** ** The moderator statistics *)

Section ModeratorFacts.
Import Contribution.

Lemma moderator_fold (l : list Contribution.t) (v : ModeratorAcc.t) :
  fold_left (fun v c => moderator_upd c v) l v =
  ModeratorAcc.mk (ModeratorAcc.moderator v)
    (ModeratorAcc.category v ++ map category l)
    (ModeratorAcc.average_score v ++ map score l).
Proof.
  revert v; induction l as [|c l IH]; intros v; simpl.
  - rewrite !app_nil_r. now destruct v.
  - rewrite IH. simpl. now rewrite <- !app_assoc.
Qed.

Lemma moderator_statistics_closed (cs : list Contribution.t) :
  moderator_statistics cs =
  Ok (map moderator_finish
        (grouped moderator moderator_init moderator_upd (moderator_kept cs))).
Proof.
  unfold moderator_statistics. rewrite moderator_loop. simpl.
  rewrite group_values.
  rewrite (for_each_pure _ (fun r value => r ++ [moderator_finish value]))
    by reflexivity.
  now rewrite fold_left_snoc_map.
Qed.

Lemma moderator_kept_idempotent (cs : list Contribution.t) :
  moderator_kept (moderator_kept cs) = moderator_kept cs.
Proof.
  unfold moderator_kept. rewrite filter_filter. apply filter_ext.
  intros c. now rewrite andb_diag.
Qed.

Lemma moderator_statistics_refines (cs : list Contribution.t) :
  moderator_statistics cs = Ok (moderator_statistics_spec cs).
Proof.
  rewrite moderator_statistics_closed. unfold moderator_statistics_spec, grouped.
  rewrite map_map. f_equal. apply map_ext. intros m.
  unfold accumulate, members. rewrite moderator_fold. reflexivity.
Qed.

(** C5. [moderator_statistics] always returns, and returns the statistics
    of the specification: the unreviewed and the banned excluded (they have
    no effect on the result), the rest grouped by moderator with the
    categories counted and the scores averaged by [average].  On an
    unreviewed contribution, a reviewed one of moderator ["BANNED"] and a
    reviewed one of moderator ["B"], score [8] and category ["c1"], the
    output is one bucket, for ["B"], with average score [8]. *)
Theorem moderator_statistics_correct :
  (forall cs, moderator_statistics cs = Ok (moderator_statistics_spec cs)) /\
  (forall cs, moderator_statistics cs = moderator_statistics (moderator_kept cs)) /\
  (forall r1 r2 r3 : Contribution.t,
      status r1 = "unreviewed" ->
      status r2 = "reviewed" -> moderator r2 = "BANNED" ->
      status r3 = "reviewed" -> moderator r3 = "B" ->
      score r3 = 8%Q -> category r3 = "c1" ->
      exists b,
        moderator_statistics [r1; r2; r3] = Ok [b] /\
        ModeratorStat.moderator b = "B" /\
        (ModeratorStat.average_score b == 8)%Q /\
        ModeratorStat.category b = [("c1", 1)]).
Proof.
  split; [exact moderator_statistics_refines|]. split.
  - intros cs. rewrite !moderator_statistics_refines.
    unfold moderator_statistics_spec. now rewrite moderator_kept_idempotent.
  - intros r1 r2 r3 H1 H2 M2 H3 M3 S3 C3.
    rewrite moderator_statistics_refines.
    unfold moderator_statistics_spec, moderator_kept. cbn [filter].
    rewrite H1, H2, M2, H3, M3. cbn. rewrite M3. cbn. rewrite S3, C3.
    eexists. split; [reflexivity|]. cbn. repeat split.
Qed.

Lemma moderator_statistics_correct_witness :
  exists b,
    moderator_statistics [Sample.unreviewed_a; Sample.banned_5; Sample.reviewed_b_8] = Ok [b] /\
    ModeratorStat.moderator b = "B" /\
    (ModeratorStat.average_score b == 8)%Q /\
    ModeratorStat.category b = [("c1", 1)].
Proof.
  apply (proj2 (proj2 moderator_statistics_correct)); reflexivity.
Defined.

End ModeratorFacts.

(** ** Counters and the contributions of banned moderators *)

Section BannedFacts.
Import Contribution.

Lemma count_map {A B : Type} (p : B -> bool) (f : A -> B) (l : list A) :
  count p (map f l) = count (fun x => p (f x)) l.
Proof.
  induction l as [|x l IH]; [reflexivity|].
  simpl map. rewrite !count_cons. now rewrite IH.
Qed.

Lemma count_filter {A : Type} (p q : A -> bool) (l : list A) :
  count p (filter q l) = count (fun x => q x && p x) l.
Proof. unfold count. now rewrite filter_filter. Qed.

Lemma count_ext {A : Type} (p q : A -> bool) (l : list A) :
  (forall x, p x = q x) -> count p l = count q l.
Proof. intros H. unfold count. now rewrite (filter_ext _ _ H). Qed.

Lemma Counter_from (x : string) (l : list string) (d : Dict.t nat) :
  Dict.get x
    (fold_left
       (fun d y => Dict.set y (match Dict.get y d with Some n => n | None => 0 end + 1) d)
       l d) =
  if count (fun y => (y =? x)%string) l =? 0 then Dict.get x d
  else Some (default 0 (Dict.get x d) + count (fun y => (y =? x)%string) l).
Proof.
  revert d; induction l as [|y l IH]; intros d; [reflexivity|].
  simpl fold_left. rewrite IH, count_cons.
  destruct (y =? x)%string eqn:E.
  - apply String.eqb_eq in E. subst y. rewrite DictFacts.get_set_same.
    change (1 + ?n =? 0) with false. cbv iota.
    destruct (count (fun y => (y =? x)%string) l =? 0) eqn:Ec.
    + apply Nat.eqb_eq in Ec. rewrite Ec. unfold default.
      destruct (Dict.get x d); f_equal; lia.
    + unfold default. destruct (Dict.get x d); f_equal; lia.
  - apply String.eqb_neq in E. rewrite DictFacts.get_set_other by congruence.
    reflexivity.
Qed.

(** [Counter(l)[x]] is the number of occurrences of [x], for [x] in [l]. *)
Lemma Counter_get (x : string) (l : list string) :
  1 <= count (fun y => (y =? x)%string) l ->
  Dict.get x (Counter l) = Some (count (fun y => (y =? x)%string) l).
Proof.
  intros H. unfold Counter. rewrite Counter_from.
  destruct (count (fun y => (y =? x)%string) l =? 0) eqn:Ec.
  - apply Nat.eqb_eq in Ec. lia.
  - reflexivity.
Qed.

(** An event of a banned moderator is counted in the bucket of its key. *)
Lemma banned_event_counted (es : list event) (e : event) :
  In e es ->
  moderator (ev_contribution e) = "BANNED" ->
  let k := ev_key e in
  let b := stat_of (accumulate ev_key Acc.fresh ev_tally k es) in
  let n := count (fun e' => (ev_key e' =? k)%string &&
                            (moderator (ev_contribution e') =? "BANNED")%string) es in
  In b (map stat_of (grouped ev_key Acc.fresh ev_tally es)) /\
  Stat.key b = k /\
  Stat.reviewed b = count (fun e' => (ev_key e' =? k)%string) es /\
  Dict.get "BANNED" (Stat.moderators b) = Some n /\
  1 <= n.
Proof.
  intros Hin Hm k b n.
  assert (Hn : 1 <= n).
  { apply (count_pos _ e); [exact Hin|]. unfold k. now rewrite String.eqb_refl, Hm. }
  destruct (accumulate_fields k es) as (Hk & _ & _ & _ & _ & Hmods & Hlen).
  split; [|split; [|split; [|split]]].
  - apply in_map. unfold grouped. apply in_map_iff. exists k. split; [reflexivity|].
    apply In_distinct. apply in_map_iff. now exists e.
  - exact Hk.
  - unfold b. simpl. rewrite Hlen. reflexivity.
  - unfold b. simpl. rewrite Hmods.
    assert (En : count (fun y => (y =? "BANNED")%string)
                   (map (fun e0 => moderator (ev_contribution e0)) (members ev_key k es)) = n).
    { rewrite count_map. unfold members. now rewrite count_filter. }
    rewrite Counter_get; rewrite En; [reflexivity|exact Hn].
  - exact Hn.
Qed.

Lemma category_events_count (k : string) (q : Contribution.t -> bool)
      (cs : list Contribution.t) (es : list event) :
  category_events cs = Ok es ->
  count (fun e => (ev_key e =? k)%string && q (ev_contribution e)) es =
  count (fun c => counted_under k c && q c) (reviewed_only cs).
Proof.
  revert es; induction cs as [|c cs IH]; intros es; simpl.
  - intros H. injection H as <-. reflexivity.
  - destruct (status c =? "unreviewed")%string; simpl; [apply IH|].
    destruct (main_category (category c)) as [[k' t]|e] eqn:Hm; simpl; [|discriminate].
    destruct (category_events cs) as [es'|e]; simpl; [|discriminate].
    intros H. injection H as <-. rewrite !count_cons, (IH es' eq_refl).
    assert (Hc : counted_under k c = (k' =? k)%string)
      by (unfold counted_under; now rewrite Hm).
    rewrite Hc. reflexivity.
Qed.

Lemma category_events_In (cs : list Contribution.t) (es : list event) (c : Contribution.t) :
  category_events cs = Ok es ->
  In c cs -> status c <> "unreviewed" ->
  exists k t, main_category (category c) = Ok (k, t) /\ In (k, t, c) es.
Proof.
  revert es; induction cs as [|c' cs IH]; intros es He Hin Hs; [contradiction|].
  simpl in He.
  destruct (status c' =? "unreviewed")%string eqn:Es.
  - destruct Hin as [->|Hin]; [apply String.eqb_eq in Es; contradiction|].
    now apply IH.
  - destruct (main_category (category c')) as [[k' t']|e] eqn:Hm; simpl in He; [|discriminate].
    destruct (category_events cs) as [es'|e]; simpl in He; [|discriminate].
    injection He as <-.
    destruct Hin as [->|Hin].
    + exists k', t'. split; [exact Hm|now left].
    + destruct (IH es' eq_refl Hin Hs) as (k & t & Hk & Hi).
      exists k, t. split; [exact Hk|now right].
Qed.

(** C10, as amended.  [category_statistics] and [project_statistics] do not
    exclude the contributions of moderator ["BANNED"]: such a contribution,
    when it is not unreviewed, is counted in the bucket of its repository
    and, whenever [category_statistics] returns, in the bucket of its
    category, and ["BANNED"] is in the moderator counts of both.
    [project_statistics] always returns such a bucket. *)
Theorem banned_counted (cs : list Contribution.t) (c : Contribution.t) :
  In c cs ->
  status c <> "unreviewed" ->
  moderator c = "BANNED" ->
  (exists out b,
      project_statistics cs = Ok out /\ In b out /\
      counts_banned b (repository c)
        (fun c' => (repository c' =? repository c)%string) cs) /\
  (forall out,
      category_statistics cs = Ok out ->
      exists k t b,
        main_category (category c) = Ok (k, t) /\ In b out /\
        counts_banned b k (counted_under k) cs).
Proof.
  intros Hin Hs Hm. split.
  - eexists. eexists. split; [apply project_statistics_closed|].
    assert (Hc : In c (reviewed_only cs)).
    { apply filter_In. split; [exact Hin|]. apply String.eqb_neq in Hs. now rewrite Hs. }
    assert (He : In (project_event c) (project_events cs)) by now apply in_map.
    destruct (banned_event_counted _ _ He Hm) as (Hb & Hk & Hr & Hg & Hn).
    split; [exact Hb|]. unfold counts_banned.
    unfold project_events in Hr, Hg, Hn. rewrite count_map in Hr, Hg, Hn.
    repeat split; assumption.
  - intros out Hout. rewrite category_statistics_closed in Hout.
    destruct (category_events cs) as [es|e] eqn:Hes; simpl in Hout; [|discriminate].
    injection Hout as <-.
    destruct (category_events_In cs es c Hes Hin Hs) as (k & t & Hk & He).
    exists k, t. eexists. split; [exact Hk|].
    destruct (banned_event_counted _ _ He Hm) as (Hb & Hkey & Hr & Hg & Hn).
    split; [exact Hb|]. unfold counts_banned.
    rewrite <- (category_events_count k _ cs es Hes).
    rewrite (count_ext (counted_under k) (fun c' => counted_under k c' && true))
      by (intros x; now rewrite andb_true_r).
    rewrite <- (category_events_count k (fun _ => true) cs es Hes).
    split; [exact Hkey|]. split; [|split; assumption].
    etransitivity; [exact Hr|]. apply count_ext. intros x. now rewrite andb_true_r.
Qed.

Lemma banned_counted_witness :
  let cs := [Sample.task_dev; Sample.banned_development] in
  exists out b k t,
    category_statistics cs = Ok out /\
    main_category (Contribution.category Sample.banned_development) = Ok (k, t) /\
    In b out /\ counts_banned b k (counted_under k) cs.
Proof.
  intros cs.
  destruct (proj2 (banned_counted cs Sample.banned_development
                     (or_intror (or_introl eq_refl))
                     ltac:(discriminate) eq_refl)
              _ eq_refl) as (k & t & b & Hk & Hb & Hc).
  eexists. exists b, k, t. split; [reflexivity|].
  split; [exact Hk|]. split; [exact Hb|exact Hc].
Defined.

(** C10, as stated, fails for [category_statistics]: on a contribution of
    moderator ["BANNED"] that is not unreviewed and whose category is
    ["task"], the reducer raises and no bucket counts the contribution. *)
Lemma banned_counted_counterexample :
  In Sample.banned_task [Sample.banned_task] /\
  status Sample.banned_task <> "unreviewed" /\
  moderator Sample.banned_task = "BANNED" /\
  category_statistics [Sample.banned_task] = Raise IndexError.
Proof.
  split; [now left|]. split; [discriminate|]. split; reflexivity.
Qed.

Lemma split_go_nonempty (sep : string) (s : string) (n : nat) (cur : string) :
  Str.split_go sep n cur s <> [].
Proof.
  revert n cur; induction s as [|c s IH]; intros n cur; cbn [Str.split_go];
    [discriminate|].
  destruct n; [|apply IH].
  destruct (prefix sep (String c s)); [discriminate|apply IH].
Qed.

(** [main_category] returns on a category without ["task"] or with
    ["task-"]. *)
Lemma main_category_returns (s : string) :
  (Str.contains "task" s = true -> Str.contains "task-" s = true) ->
  exists k t, main_category s = Ok (k, t).
Proof.
  intros H. destruct (Str.contains "task" s) eqn:Et.
  - destruct (StrFacts.contains_leftmost "task-" s) as (pre & tail & -> & Hpre);
      [discriminate|now apply H|].
    rewrite (main_category_task _ _ Hpre). unfold Str.split.
    pose proof (split_go_nonempty "task-" tail 0 "") as Hne.
    destruct (Str.split_go "task-" 0 "" tail) as [|k l]; [congruence|].
    now exists k, true.
  - exists s, false. now apply main_category_plain.
Qed.

Lemma category_events_returns (cs : list Contribution.t) :
  (forall c, In c cs -> status c <> "unreviewed" ->
             Str.contains "task" (category c) = true ->
             Str.contains "task-" (category c) = true) ->
  exists es, category_events cs = Ok es.
Proof.
  induction cs as [|c cs IH]; intros H; simpl; [now exists []|].
  destruct IH as [es Hes]; [intros c' Hc'; apply H; now right|].
  destruct (status c =? "unreviewed")%string eqn:Es; [now exists es|].
  apply String.eqb_neq in Es.
  destruct (main_category_returns (category c)) as (k & t & Hm);
    [apply H; [now left|exact Es]|].
  rewrite Hm, Hes. simpl. eexists. reflexivity.
Qed.

(** [category_statistics] returns when every counted category that
    contains ["task"] contains ["task-"]. *)
Lemma category_statistics_returns (cs : list Contribution.t) :
  (forall c, In c cs -> status c <> "unreviewed" ->
             Str.contains "task" (category c) = true ->
             Str.contains "task-" (category c) = true) ->
  exists out, category_statistics cs = Ok out.
Proof.
  intros H. destruct (category_events_returns cs H) as [es Hes].
  rewrite category_statistics_closed, Hes. simpl. eexists. reflexivity.
Qed.

(** C3. In every bucket of [project_statistics] and of
    [category_statistics], [reviewed >= 1]: the first loop only stores
    values with [voted + not_voted >= 1], so the division by [reviewed] in
    the second loop never raises.  [project_statistics] always returns;
    [category_statistics] returns whenever its first loop does, which it
    does when every counted category that contains ["task"] contains
    ["task-"]; it never raises [ZeroDivisionError]. *)
Theorem reviewed_positive (cs : list Contribution.t) :
  (exists d out,
      for_each project_body cs [] = Ok d /\
      Forall (fun v => 1 <= Acc.voted v + Acc.not_voted v) (Dict.values d) /\
      project_statistics cs = Ok out /\
      Forall (fun b => 1 <= Stat.reviewed b) out) /\
  (forall d,
      for_each category_body cs [] = Ok d ->
      Forall (fun v => 1 <= Acc.voted v + Acc.not_voted v) (Dict.values d) /\
      exists out,
        category_statistics cs = Ok out /\
        Forall (fun b => 1 <= Stat.reviewed b) out) /\
  ((forall c, In c cs -> status c <> "unreviewed" ->
              Str.contains "task" (category c) = true ->
              Str.contains "task-" (category c) = true) ->
   exists d, for_each category_body cs [] = Ok d) /\
  category_statistics cs <> Raise ZeroDivisionError.
Proof.
  assert (Hstat : forall es,
             Forall (fun b => 1 <= Stat.reviewed b)
               (map stat_of (grouped ev_key Acc.fresh ev_tally es))).
  { intros es. apply Forall_forall. intros b Hb.
    apply in_map_iff in Hb as (v & <- & Hv). simpl. now apply grouped_reviewed in Hv. }
  assert (Hacc : forall es,
             Forall (fun v => 1 <= Acc.voted v + Acc.not_voted v)
               (Dict.values (fold_left (group_step ev_key Acc.fresh ev_tally) es []))).
  { intros es. rewrite group_values. apply Forall_forall. intros v.
    apply grouped_reviewed. }
  split; [|split; [|split]].
  - eexists. eexists. split; [apply project_loop|]. split; [apply Hacc|].
    split; [apply project_statistics_closed|apply Hstat].
  - intros d Hd. rewrite category_loop in Hd. rewrite category_statistics_closed.
    destruct (category_events cs) as [es|e]; simpl in *; [|discriminate].
    injection Hd as <-. split; [apply Hacc|].
    eexists. split; [reflexivity|apply Hstat].
  - intros H. destruct (category_events_returns cs H) as [es Hes].
    rewrite category_loop, Hes. simpl. eexists. reflexivity.
  - rewrite category_statistics_closed.
    destruct (category_events cs) as [es|e] eqn:He; simpl; [discriminate|].
    apply category_events_error in He. subst e. discriminate.
Qed.

Lemma reviewed_positive_witness :
  exists out,
    category_statistics [Sample.task_dev; Sample.banned_development] = Ok out /\
    Forall (fun b => 1 <= Stat.reviewed b) out.
Proof.
  exact (proj2 (proj1 (proj2 (reviewed_positive
                                [Sample.task_dev; Sample.banned_development]))
                  _ eq_refl)).
Defined.

End BannedFacts.

(** ** The category and project statistics in full *)

Section RefinementFacts.
Import Contribution.

Lemma filter_map_comm {A B : Type} (p : B -> bool) (f : A -> B) (l : list A) :
  filter p (map f l) = map f (filter (fun x => p (f x)) l).
Proof.
  induction l as [|x l IH]; simpl; [reflexivity|].
  destruct (p (f x)); simpl; now rewrite IH.
Qed.

(** The buckets made from a list of contributions turned into events by a
    key and a task test. *)
Lemma grouped_events (keyf : Contribution.t -> string) (taskf : Contribution.t -> bool)
      (l : list Contribution.t) :
  map stat_of
    (grouped ev_key Acc.fresh ev_tally (map (fun c => (keyf c, taskf c, c)) l)) =
  map (fun k => bucket_of k taskf (filter (fun c => (keyf c =? k)%string) l))
    (distinct (map keyf l)).
Proof.
  unfold grouped. rewrite !map_map. apply map_ext. intros k.
  unfold accumulate, members. rewrite filter_map_comm.
  change (fun x => (ev_key (keyf x, taskf x, x) =? k)%string)
    with (fun c => (keyf c =? k)%string).
  set (g := filter (fun c => (keyf c =? k)%string) l).
  match goal with
  | |- stat_of (fold_left _ ?es ?v) = _ => pose proof (tally_fold es v) as H
  end.
  cbv zeta in H. rewrite !count_map, !map_map in H.
  destruct H as (Hk & Hv & Hn & Hu & Ht & Hm & Hs & Hp & _).
  unfold stat_of, bucket_of. rewrite Hk, Hv, Hn, Hu, Ht, Hm, Hs, Hp. reflexivity.
Qed.

Lemma main_category_flag (s k : string) (t : bool) :
  main_category s = Ok (k, t) -> t = Str.contains "task" s.
Proof.
  unfold main_category. destruct (Str.contains "task" s).
  - destruct (getitem (Str.split "task-" s) 1); simpl; [|discriminate].
    intros H. now injection H as _ <-.
  - intros H. now injection H as _ <-.
Qed.

Lemma category_events_map (cs : list Contribution.t) (es : list event) :
  category_events cs = Ok es ->
  es = map (fun c => (category_key c, has_task c, c)) (reviewed_only cs).
Proof.
  revert es; induction cs as [|c cs IH]; intros es; simpl.
  - intros H. now injection H as <-.
  - destruct (status c =? "unreviewed")%string; simpl; [apply IH|].
    destruct (main_category (category c)) as [[k t]|e] eqn:Hm; simpl; [|discriminate].
    destruct (category_events cs) as [es'|e]; simpl; [|discriminate].
    intros H. injection H as <-. rewrite <- (IH es' eq_refl).
    unfold category_key, has_task. rewrite Hm.
    now rewrite (main_category_flag _ _ _ Hm).
Qed.

Lemma project_statistics_refines (cs : list Contribution.t) :
  project_statistics cs = Ok (project_statistics_spec cs).
Proof.
  rewrite project_statistics_closed. unfold project_events, project_event.
  now rewrite (grouped_events repository has_task).
Qed.

Lemma category_statistics_refines (cs : list Contribution.t) (out : list Stat.t) :
  category_statistics cs = Ok out -> out = category_statistics_spec cs.
Proof.
  rewrite category_statistics_closed.
  destruct (category_events cs) as [es|e] eqn:He; simpl; [|discriminate].
  intros H. injection H as <-.
  rewrite (category_events_map cs es He).
  apply (grouped_events category_key has_task).
Qed.

End RefinementFacts.

(** ** Totals over the buckets *)

Section TotalFacts.
Import Contribution.

Lemma list_sum_split (f : string -> nat) (x : string) (L : list string) :
  NoDup L ->
  list_sum (map f L) =
  (if mem x L then f x else 0) +
  list_sum (map f (filter (fun y => negb (y =? x)%string) L)).
Proof.
  induction L as [|y L IH]; intros Hnd; [reflexivity|].
  inversion Hnd as [|? ? Hnotin Hnd']; subst. specialize (IH Hnd').
  simpl. destruct (y =? x)%string eqn:E; simpl.
  - apply String.eqb_eq in E. subst y.
    destruct (mem x L) eqn:Hm; [apply DictFacts.mem_In in Hm; contradiction|].
    simpl in IH. lia.
  - destruct (mem x L); lia.
Qed.

Lemma count_absent {A : Type} (keyf : A -> string) (p : A -> bool) (k : string)
      (l : list A) :
  mem k (distinct (map keyf l)) = false ->
  count p (filter (fun c => (keyf c =? k)%string) l) = 0.
Proof.
  intros Hm. unfold count.
  destruct (filter p (filter (fun c => (keyf c =? k)%string) l)) as [|c g] eqn:Hg;
    [reflexivity|].
  assert (Hin : In c (filter p (filter (fun c => (keyf c =? k)%string) l)))
    by (rewrite Hg; now left).
  apply filter_In in Hin as [Hin _]. apply filter_In in Hin as [Hin Hk].
  apply String.eqb_eq in Hk.
  assert (Hmem : mem k (distinct (map keyf l)) = true).
  { apply DictFacts.mem_In, In_distinct, in_map_iff. now exists c. }
  congruence.
Qed.

(** Every element is filed under exactly one key: the counts of the groups
    add up to the count of the whole list. *)
Lemma partition_count {A : Type} (keyf : A -> string) (p : A -> bool) (l : list A) :
  list_sum
    (map (fun k => count p (filter (fun c => (keyf c =? k)%string) l))
       (distinct (map keyf l))) =
  count p l.
Proof.
  induction l as [|c l IH]; [reflexivity|].
  cbn [map distinct list_sum fold_right]. cbn [filter]. rewrite String.eqb_refl.
  rewrite !count_cons.
  set (F' := fun k => count p (filter (fun c0 => (keyf c0 =? k)%string) l)) in *.
  set (D' := distinct (map keyf l)) in *.
  assert (Hrest :
            map (fun k => count p
                            (if (keyf c =? k)%string
                             then c :: filter (fun c0 => (keyf c0 =? k)%string) l
                             else filter (fun c0 => (keyf c0 =? k)%string) l))
              (filter (fun y => negb (y =? keyf c)%string) D') =
            map F' (filter (fun y => negb (y =? keyf c)%string) D')).
  { apply map_ext_in. intros k Hk. apply filter_In in Hk as [_ Hk].
    rewrite String.eqb_sym. destruct (k =? keyf c)%string; [discriminate|reflexivity]. }
  rewrite Hrest.
  pose proof (list_sum_split F' (keyf c) D' (NoDup_distinct _)) as Hsplit.
  assert (Hk : (if mem (keyf c) D' then F' (keyf c) else 0) = F' (keyf c)).
  { destruct (mem (keyf c) D') eqn:Hm; [reflexivity|].
    symmetry. now apply count_absent. }
  rewrite Hk in Hsplit. fold (F' (keyf c)). unfold list_sum in *. lia.
Qed.

Lemma count_votes_length (g : list Contribution.t) :
  count is_voted g + count is_not_voted g = List.length g.
Proof.
  induction g as [|c g IH]; [reflexivity|].
  rewrite !count_cons. simpl. pose proof (vote_partition c). lia.
Qed.

Lemma list_sum_map_add {A : Type} (f g : A -> nat) (l : list A) :
  list_sum (map (fun x => f x + g x) l) = list_sum (map f l) + list_sum (map g l).
Proof. induction l as [|x l IH]; simpl; lia. Qed.

Lemma count_true {A : Type} (l : list A) : count (fun _ => true) l = List.length l.
Proof. unfold count. induction l; simpl; congruence. Qed.

(** The totals of the buckets described by counting. *)
Lemma bucket_totals (keyf : Contribution.t -> string) (l : list Contribution.t) :
  let out :=
    map (fun k => bucket_of k has_task (filter (fun c => (keyf c =? k)%string) l))
      (distinct (map keyf l)) in
  list_sum (map Stat.reviewed out) = List.length l /\
  list_sum (map Stat.voted out) = count is_voted l /\
  list_sum (map Stat.not_voted out) = count is_not_voted l /\
  list_sum (map Stat.unvoted out) = count is_unvoted l /\
  list_sum (map Stat.task_requests out) = count has_task l.
Proof.
  intros out. unfold out. rewrite !map_map. cbn [bucket_of Stat.reviewed Stat.voted
    Stat.not_voted Stat.unvoted Stat.task_requests].
  rewrite (list_sum_map_add
             (fun k => count is_voted (filter (fun c => (keyf c =? k)%string) l))
             (fun k => count is_not_voted (filter (fun c => (keyf c =? k)%string) l))).
  rewrite !partition_count. repeat split. apply count_votes_length.
Qed.

End TotalFacts.

(** ** Further properties of the statistics *)

Section StatisticsFacts.
Import Contribution.

Lemma statistics_by_counting (cs : list Contribution.t) (out : list Stat.t) :
  category_statistics cs = Ok out \/ project_statistics cs = Ok out ->
  exists keyf : Contribution.t -> string,
    out =
    map (fun k =>
           bucket_of k has_task
             (filter (fun c => (keyf c =? k)%string) (reviewed_only cs)))
      (distinct (map keyf (reviewed_only cs))).
Proof.
  intros [H|H].
  - exists category_key. now apply category_statistics_refines.
  - exists repository. rewrite project_statistics_refines in H. now injection H as <-.
Qed.

(** X1. [project_statistics] always returns, with one bucket per repository
    that has a counted contribution, in the order the repositories are
    first seen; the bucket of a repository holds the counts, the payout
    sum, the score average and the moderator counts of its counted
    contributions. *)
Theorem project_statistics_by_counting (cs : list Contribution.t) :
  project_statistics cs = Ok (project_statistics_spec cs) /\
  map Stat.key (project_statistics_spec cs) = distinct (map repository (reviewed_only cs)).
Proof.
  split; [apply project_statistics_refines|].
  unfold project_statistics_spec. rewrite map_map. simpl. apply map_id.
Qed.

(** X2. When every counted category that contains ["task"] contains
    ["task-"], [category_statistics] returns one bucket per key, in the
    order the keys are first seen, each holding the counts, the payout sum,
    the score average and the moderator counts of the counted contributions
    filed under its key. *)
Theorem category_statistics_by_counting (cs : list Contribution.t) :
  task_categories_prefixed cs ->
  category_statistics cs = Ok (category_statistics_spec cs) /\
  map Stat.key (category_statistics_spec cs) =
  distinct (map category_key (reviewed_only cs)).
Proof.
  intros H. split.
  - destruct (category_statistics_returns cs H) as [out Hout].
    rewrite Hout. f_equal. now apply category_statistics_refines.
  - unfold category_statistics_spec. rewrite map_map. simpl. apply map_id.
Qed.

Lemma category_statistics_by_counting_witness :
  let cs := [Sample.task_dev; Sample.banned_development] in
  category_statistics cs = Ok (category_statistics_spec cs) /\
  map Stat.key (category_statistics_spec cs) =
  distinct (map category_key (reviewed_only cs)).
Proof.
  intros cs. apply (category_statistics_by_counting cs).
  intros c [<-|[<-|[]]] _; [reflexivity|discriminate].
Defined.

(** X3. The buckets of either reducer share out the counted contributions:
    their [reviewed] add up to the number of contributions that are not
    unreviewed, their [voted], [not_voted] and [unvoted] to the numbers of
    those voted on, not voted on and unvoted, and their task requests to the
    number of those [task_request_statistics] returns. *)
Theorem statistics_totals (cs : list Contribution.t) (out : list Stat.t) :
  category_statistics cs = Ok out \/ project_statistics cs = Ok out ->
  list_sum (map Stat.reviewed out) = List.length (reviewed_only cs) /\
  list_sum (map Stat.voted out) = count is_voted (reviewed_only cs) /\
  list_sum (map Stat.not_voted out) = count is_not_voted (reviewed_only cs) /\
  list_sum (map Stat.unvoted out) = count is_unvoted (reviewed_only cs) /\
  list_sum (map Stat.task_requests out) =
    List.length (reviewed_only (task_request_statistics cs)).
Proof.
  intros H. destruct (statistics_by_counting cs out H) as [keyf ->].
  destruct (bucket_totals keyf (reviewed_only cs)) as (Hr & Hv & Hn & Hu & Ht).
  repeat split; try assumption.
  rewrite Ht. unfold task_request_statistics, reviewed_only, count.
  rewrite (fold_left_filter_snoc (fun c => Str.contains "task" (category c)) cs []).
  simpl. rewrite !filter_filter. f_equal. apply filter_ext. intros c.
  unfold has_task. apply andb_comm.
Qed.

Lemma statistics_totals_witness :
  let cs := [Sample.task_dev; Sample.unreviewed_a; Sample.banned_development] in
  let out := project_statistics_spec cs in
  project_statistics cs = Ok out /\
  list_sum (map Stat.reviewed out) = List.length (reviewed_only cs) /\
  list_sum (map Stat.voted out) = count is_voted (reviewed_only cs) /\
  list_sum (map Stat.not_voted out) = count is_not_voted (reviewed_only cs) /\
  list_sum (map Stat.unvoted out) = count is_unvoted (reviewed_only cs) /\
  list_sum (map Stat.task_requests out) =
    List.length (reviewed_only (task_request_statistics cs)).
Proof.
  intros cs out.
  assert (H : project_statistics cs = Ok out) by (vm_compute; reflexivity).
  split; [exact H|].
  apply (statistics_totals cs out). right. exact H.
Defined.

End StatisticsFacts.

(** ** Counters of a bucket and [percentage] *)

Section RatioFacts.
Import Contribution.

Lemma set_values_sum (x : string) (v : nat) (d : Dict.t nat) :
  list_sum (Dict.values (Dict.set x v d)) + default 0 (Dict.get x d) =
  list_sum (Dict.values d) + v.
Proof.
  induction d as [|[k n] d IH]; simpl; [lia|].
  destruct (String.eqb k x); simpl; [lia|].
  unfold Dict.values in *. lia.
Qed.

(** The counts of a [Counter] add up to the length of the list counted. *)
Lemma Counter_total (l : list string) :
  list_sum (Dict.values (Counter l)) = List.length l.
Proof.
  unfold Counter.
  assert (H : forall d : Dict.t nat,
             list_sum (Dict.values
                         (fold_left
                            (fun d x =>
                               Dict.set x (match Dict.get x d with Some n => n | None => 0 end + 1) d)
                            l d)) =
             list_sum (Dict.values d) + List.length l).
  { induction l as [|x l IH]; intros d; simpl; [lia|].
    rewrite IH.
    pose proof (set_values_sum x (match Dict.get x d with Some n => n | None => 0 end + 1) d)
      as Hs.
    unfold default in Hs. lia. }
  rewrite H. reflexivity.
Qed.

Lemma Counter_lookup (x : string) (l : list string) :
  Dict.get x (Counter l) =
  if count (fun y => (y =? x)%string) l =? 0 then None
  else Some (count (fun y => (y =? x)%string) l).
Proof. unfold Counter. now rewrite Counter_from. Qed.

(** X4. In every bucket of either reducer the moderator counts add up to
    [reviewed], and each of them is at least [1] and at most [reviewed]. *)
Theorem bucket_moderator_counts (cs : list Contribution.t) (out : list Stat.t) (b : Stat.t) :
  category_statistics cs = Ok out \/ project_statistics cs = Ok out ->
  In b out ->
  list_sum (Dict.values (Stat.moderators b)) = Stat.reviewed b /\
  (forall m n, Dict.get m (Stat.moderators b) = Some n -> 1 <= n <= Stat.reviewed b).
Proof.
  intros H Hb. destruct (statistics_buckets cs out b H Hb) as (es & k & Hne & ->).
  destruct (accumulate_fields k es) as (_ & _ & _ & _ & _ & Hm & Hlen).
  cbn [stat_of Stat.reviewed Stat.moderators]. rewrite Hm, Hlen. split.
  - now rewrite Counter_total, length_map.
  - intros m n Hn. rewrite Counter_lookup in Hn.
    destruct (count (fun y => (y =? m)%string)
                (map (fun e => moderator (ev_contribution e)) (members ev_key k es)) =? 0)
      eqn:E; [discriminate|].
    injection Hn as <-. apply Nat.eqb_neq in E. split; [lia|].
    rewrite <- (length_map (fun e => moderator (ev_contribution e))).
    apply count_le_length.
Qed.

Lemma bucket_moderator_counts_witness :
  let cs := [Sample.task_dev; Sample.unreviewed_a; Sample.banned_development] in
  let b := bucket_of "utopian.rocks" has_task [Sample.task_dev; Sample.banned_development] in
  list_sum (Dict.values (Stat.moderators b)) = Stat.reviewed b /\
  (forall m n, Dict.get m (Stat.moderators b) = Some n -> 1 <= n <= Stat.reviewed b).
Proof.
  intros cs b.
  apply (bucket_moderator_counts cs [b]).
  - right. vm_compute. reflexivity.
  - left. reflexivity.
Defined.

(** X5. [percentage] never raises, and it returns [100] when [reviewed] is
    [0], whatever [voted] is. *)
Theorem percentage_safe (reviewed voted : nat) :
  exists p,
    percentage reviewed voted = Ok p /\
    (reviewed = 0 -> p = 100%Q).
Proof.
  unfold percentage, truediv. destruct reviewed as [|n].
  - exists 100%Q. split; reflexivity.
  - rewrite of_nat_nonzero by lia. eexists. split; [reflexivity|discriminate].
Qed.

Lemma percentage_safe_witness :
  percentage 0 3 = Ok 100%Q /\ exists p, percentage 4 2 = Ok p.
Proof.
  split.
  - destruct (percentage_safe 0 3) as (q & Hq0 & Hz).
    rewrite Hq0. f_equal. now apply Hz.
  - destruct (percentage_safe 4 2) as (p & Hp & _). now exists p.
Defined.

End RatioFacts.

(** ** Keys of the buckets *)

Section KeyFacts.
Import Contribution.
Local Open Scope string_scope.

Lemma In_reviewed_only (cs : list Contribution.t) (c : Contribution.t) :
  In c (reviewed_only cs) <-> In c cs /\ status c <> "unreviewed".
Proof.
  unfold reviewed_only. rewrite filter_In. split; intros [Hin Hs]; split; try exact Hin.
  - intros E. rewrite E in Hs. discriminate Hs.
  - apply String.eqb_neq in Hs. now rewrite Hs.
Qed.

Lemma category_returns_key (cs : list Contribution.t) (out : list Stat.t) (c : Contribution.t) :
  category_statistics cs = Ok out ->
  In c cs -> status c <> "unreviewed" ->
  exists t, main_category (category c) = Ok (category_key c, t).
Proof.
  intros H Hin Hs. rewrite category_statistics_closed in H.
  destruct (category_events cs) as [es|e] eqn:He; simpl in H; [|discriminate].
  destruct (category_events_In cs es c He Hin Hs) as (k & t & Hk & _).
  exists t. unfold category_key. now rewrite Hk.
Qed.

(** X6. No two buckets of a reducer have the same key.  The keys of
    [project_statistics] are the repositories of the counted contributions,
    those of [category_statistics] the keys [main_category] gives them. *)
Theorem bucket_keys (cs : list Contribution.t) (out : list Stat.t) :
  category_statistics cs = Ok out \/ project_statistics cs = Ok out ->
  NoDup (map Stat.key out) /\
  (project_statistics cs = Ok out ->
   forall k, In k (map Stat.key out) <->
             exists c, In c cs /\ status c <> "unreviewed" /\ repository c = k) /\
  (category_statistics cs = Ok out ->
   forall k, In k (map Stat.key out) <->
             exists c t, In c cs /\ status c <> "unreviewed" /\
                         main_category (category c) = Ok (k, t)).
Proof.
  intros H. split; [|split].
  - destruct (statistics_by_counting cs out H) as [keyf ->].
    rewrite map_map. simpl. rewrite map_id. apply NoDup_distinct.
  - intros Hp k. rewrite project_statistics_refines in Hp. injection Hp as <-.
    unfold project_statistics_spec. rewrite map_map. simpl. rewrite map_id.
    rewrite In_distinct, in_map_iff. split.
    + intros (c & <- & Hc). apply In_reviewed_only in Hc as [Hin Hs]. now exists c.
    + intros (c & Hin & Hs & <-). exists c. split; [reflexivity|].
      now apply In_reviewed_only.
  - intros Hc k. pose proof (category_statistics_refines cs out Hc) as ->.
    unfold category_statistics_spec. rewrite map_map. simpl. rewrite map_id.
    rewrite In_distinct, in_map_iff. split.
    + intros (c & <- & Hin). apply In_reviewed_only in Hin as [Hin Hs].
      destruct (category_returns_key cs _ c Hc Hin Hs) as [t Ht]. now exists c, t.
    + intros (c & t & Hin & Hs & Hk). exists c. split.
      * unfold category_key. now rewrite Hk.
      * now apply In_reviewed_only.
Qed.

Lemma bucket_keys_witness :
  let cs := [Sample.task_dev; Sample.unreviewed_a; Sample.banned_development] in
  let out := project_statistics_spec cs in
  NoDup (map Stat.key out) /\
  (In "utopian.rocks" (map Stat.key out) <->
   exists c, In c cs /\ status c <> "unreviewed" /\ repository c = "utopian.rocks").
Proof.
  intros cs out.
  assert (H : project_statistics cs = Ok out) by (vm_compute; reflexivity).
  destruct (bucket_keys cs out (or_intror H)) as (Hnd & Hp & _).
  split; [exact Hnd|exact (Hp H "utopian.rocks")].
Defined.

Lemma contains_task_prefix_false (s : string) :
  Str.contains "task" s = false -> Str.contains "task-" s = false.
Proof.
  intros H. destruct (Str.contains "task-" s) eqn:E; [|reflexivity].
  apply (StrFacts.contains_weaken "task" "-") in E. congruence.
Qed.

(** The key [main_category] returns never contains ["task-"]. *)
Lemma main_category_clean (s k : string) (t : bool) :
  main_category s = Ok (k, t) -> Str.contains "task-" k = false.
Proof.
  intros H. destruct (Str.contains "task" s) eqn:Et.
  - destruct (Str.contains "task-" s) eqn:Ep.
    + destruct (key_after_task_exists s Ep) as [k0 Hk0].
      rewrite (main_category_key s k0 Hk0) in H. injection H as <- _.
      destruct Hk0 as (pre & tail & _ & _ & [[Ht ->]|(rest & _ & Hk)]); assumption.
    + unfold main_category in H. rewrite Et, (StrFacts.split_absent _ _ Ep) in H.
      discriminate H.
  - rewrite (main_category_plain s Et) in H. injection H as <- _.
    now apply contains_task_prefix_false.
Qed.

(** X7. No key of a bucket of [category_statistics] contains ["task-"]. *)
Theorem category_keys_clean (cs : list Contribution.t) (out : list Stat.t) (b : Stat.t) :
  category_statistics cs = Ok out ->
  In b out ->
  Str.contains "task-" (Stat.key b) = false.
Proof.
  intros H Hb.
  pose proof (category_statistics_refines cs out H) as ->.
  unfold category_statistics_spec in Hb. apply in_map_iff in Hb as (k & <- & Hk).
  simpl. apply In_distinct, in_map_iff in Hk as (c & <- & Hc).
  apply In_reviewed_only in Hc as [Hin Hs].
  destruct (category_returns_key cs _ c H Hin Hs) as [t Ht].
  now apply main_category_clean in Ht.
Qed.

Lemma category_keys_clean_witness :
  let cs := [Sample.task_twice; Sample.unreviewed_a] in
  let b := bucket_of "a-" has_task [Sample.task_twice] in
  category_statistics cs = Ok [b] /\
  Str.contains "task-" (Stat.key b) = false.
Proof.
  intros cs b.
  assert (H : category_statistics cs = Ok [b]) by (vm_compute; reflexivity).
  split; [exact H|].
  apply (category_keys_clean cs [b] b H). left. reflexivity.
Defined.

(** X8. A task request is counted with the contributions of its main
    category: two counted contributions of categories ["task-" ++ x] and
    [x], [x] without ["task"], make one bucket, of key [x], with two
    reviewed contributions and one task request. *)
Theorem task_request_merged (c1 c2 : Contribution.t) (x : string) :
  status c1 <> "unreviewed" ->
  status c2 <> "unreviewed" ->
  category c1 = "task-" ++ x ->
  category c2 = x ->
  Str.contains "task" x = false ->
  exists b,
    category_statistics [c1; c2] = Ok [b] /\
    Stat.key b = x /\ Stat.reviewed b = 2 /\ Stat.task_requests b = 1.
Proof.
  intros H1 H2 C1 C2 Hx.
  assert (M1 : main_category (category c1) = Ok (x, true)).
  { rewrite C1. apply (main_category_once "" x); [reflexivity|].
    now apply contains_task_prefix_false. }
  assert (M2 : main_category (category c2) = Ok (x, false)).
  { rewrite C2. now apply main_category_plain. }
  rewrite category_statistics_closed. cbn [category_events].
  apply String.eqb_neq in H1, H2. rewrite H1, H2, M1, M2. cbn [bind fst snd].
  unfold grouped. cbn [map ev_key fst distinct filter]. rewrite String.eqb_refl.
  cbn [negb map]. eexists. split; [reflexivity|].
  destruct (accumulate_fields x [(x, true, c1); (x, false, c2)])
    as (Hk & _ & _ & _ & Ht & _ & Hlen).
  unfold members in *. cbn [filter ev_key fst] in *.
  rewrite String.eqb_refl in *.
  cbn [stat_of Stat.key Stat.reviewed Stat.task_requests].
  split; [exact Hk|]. split; [exact Hlen|exact Ht].
Qed.

Lemma task_request_merged_witness :
  exists b,
    category_statistics
      [Sample.task_dev;
       Contribution.mk "reviewed" "dev" "utopian.rocks" "amosbastian" 70 5 10 false false
         "bob" "https://steemit.com/@bob/dev"] = Ok [b] /\
    Stat.key b = "dev" /\ Stat.reviewed b = 2 /\ Stat.task_requests b = 1.
Proof.
  apply (task_request_merged _ _ "dev"); try discriminate; reflexivity.
Defined.

End KeyFacts.

(** ** [without_score] *)

Section WithoutScoreFacts.
Context {V : Type}.
Implicit Types (d : Dict.t V).

Lemma get_app_absent (x : string) d1 d2 :
  ~ In x (Dict.keys d1) -> Dict.get x (d1 ++ d2) = Dict.get x d2.
Proof.
  induction d1 as [|[k v] d1 IH]; simpl; intros H; [reflexivity|].
  destruct (String.eqb k x) eqn:E.
  - apply String.eqb_eq in E. exfalso. apply H. now left.
  - apply IH. intros Hin. apply H. now right.
Qed.

Lemma set_absent (x : string) (v : V) d :
  ~ In x (Dict.keys d) -> Dict.set x v d = d ++ [(x, v)].
Proof.
  induction d as [|[k w] d IH]; simpl; intros H; [reflexivity|].
  destruct (String.eqb k x) eqn:E.
  - apply String.eqb_eq in E. exfalso. apply H. now left.
  - rewrite IH; [reflexivity|]. intros Hin. apply H. now right.
Qed.

Lemma keys_filter_subset (p : string * V -> bool) (x : string) d :
  In x (Dict.keys (filter p d)) -> In x (Dict.keys d).
Proof.
  unfold Dict.keys. rewrite !in_map_iff. intros (kv & <- & Hin).
  apply filter_In in Hin as [Hin _]. now exists kv.
Qed.

Lemma get_filter_keeps (k : string) d :
  Dict.get k (filter keeps d) = if (k =? "score")%string then None else Dict.get k d.
Proof.
  induction d as [|[k' v] d IH]; simpl.
  - now destruct (k =? "score")%string.
  - unfold keeps at 1. simpl. destruct (k' =? "score")%string eqn:Es; simpl.
    + rewrite IH. destruct (k =? "score")%string eqn:Ek; [reflexivity|].
      apply String.eqb_eq in Es. subst k'.
      rewrite String.eqb_sym, Ek. reflexivity.
    + rewrite IH. destruct (k' =? k)%string eqn:Ek; [|reflexivity].
      apply String.eqb_eq in Ek. subst k'. now rewrite Es.
Qed.

Lemma without_score_loop d d1 d2 :
  d = d1 ++ d2 ->
  NoDup (Dict.keys d) ->
  for_each
    (fun acc x =>
       if negb (x =? "score")%string
       then v <- Dict.item x d ;; Ok (Dict.set x v acc)
       else Ok acc)
    (Dict.keys d2) (filter keeps d1) =
  Ok (filter keeps d).
Proof.
  revert d1; induction d2 as [|[x v] d2 IH]; intros d1 Hd Hnd.
  - simpl. now rewrite Hd, app_nil_r.
  - assert (Hd' : d = (d1 ++ [(x, v)]) ++ d2) by (now rewrite <- app_assoc).
    assert (Hx : ~ In x (Dict.keys d1)).
    { rewrite Hd in Hnd. unfold Dict.keys in *. rewrite map_app in Hnd. simpl in Hnd.
      apply NoDup_remove_2 in Hnd. intros Hin. apply Hnd, in_or_app. now left. }
    specialize (IH (d1 ++ [(x, v)]) Hd' Hnd).
    rewrite filter_app in IH. simpl in IH. unfold keeps at 2 in IH. simpl in IH.
    simpl. destruct (x =? "score")%string; simpl.
    + simpl in IH. now rewrite app_nil_r in IH.
    + unfold Dict.item. rewrite Hd at 1. rewrite (get_app_absent x d1 _ Hx). simpl.
      rewrite String.eqb_refl. simpl.
      rewrite set_absent; [exact IH|].
      intros Hin. apply Hx. eapply keys_filter_subset. exact Hin.
Qed.

(** X9. On a dictionary (no key twice), [without_score] returns: it never
    raises [KeyError].  The result is the dictionary without its entry
    ["score"], the other entries unchanged and in their order. *)
Theorem without_score_removes d :
  NoDup (Dict.keys d) ->
  exists d',
    without_score d = Ok d' /\
    d' = filter keeps d /\
    Dict.get "score" d' = None /\
    (forall k, k <> "score"%string -> Dict.get k d' = Dict.get k d) /\
    without_score d' = Ok d'.
Proof.
  intros Hnd.
  assert (Hloop : forall d0 : Dict.t V,
             NoDup (Dict.keys d0) -> without_score d0 = Ok (filter keeps d0)).
  { intros d0 H0. unfold without_score. apply (without_score_loop d0 [] d0 eq_refl H0). }
  exists (filter keeps d). split; [now apply Hloop|]. split; [reflexivity|].
  split; [|split].
  - now rewrite get_filter_keeps.
  - intros k Hk. rewrite get_filter_keeps. apply String.eqb_neq in Hk. now rewrite Hk.
  - rewrite Hloop.
    + f_equal. rewrite filter_filter. apply filter_ext. intros kv. apply andb_diag.
    + unfold Dict.keys in *. clear Hloop.
      induction d as [|[k v] d IH]; simpl; [constructor|].
      inversion Hnd as [|? ? Hk Hnd']; subst.
      unfold keeps at 1. simpl. destruct (k =? "score")%string; simpl; [now apply IH|].
      constructor; [|now apply IH].
      intros Hin. apply Hk. now apply (keys_filter_subset keeps) in Hin.
Qed.

End WithoutScoreFacts.

Lemma without_score_removes_witness :
  let d := [("author", 1); ("score", 2); ("status", 3)]%string in
  exists d',
    without_score d = Ok d' /\
    d' = filter keeps d /\
    Dict.get "score" d' = None /\
    (forall k, k <> "score"%string -> Dict.get k d' = Dict.get k d) /\
    without_score d' = Ok d'.
Proof.
  intros d. apply (without_score_removes d).
  repeat constructor; simpl; intuition discriminate.
Defined.

(** ** The digest of the staff picks *)

Section DigestFacts.
Import Contribution.
Variable post_title : string -> result string.
Variable str : Q -> string.

Let body := staff_pick_body post_title str.
Let section_of := staff_pick_section post_title str.

Lemma staff_pick_body_from (s : string) (c : Contribution.t) :
  body s c = (r <- body ""%string c ;; Ok (s ++ r)%string).
Proof.
  unfold body, staff_pick_body. destruct (post_title (url c)); reflexivity.
Qed.

Lemma staff_pick_loop_from (l : list Contribution.t) (s : string) :
  for_each body l s = (r <- for_each body l ""%string ;; Ok (s ++ r)%string).
Proof.
  revert s; induction l as [|c l IH]; intros s; simpl.
  - now rewrite StrFacts.append_nil_r.
  - rewrite (staff_pick_body_from s c).
    destruct (body ""%string c) as [r|e]; simpl; [|reflexivity].
    rewrite (IH (s ++ r)%string), (IH r).
    destruct (for_each body l ""%string) as [r'|e]; simpl; [|reflexivity].
    now rewrite StrFacts.append_assoc.
Qed.

Lemma staff_pick_section_app (l1 l2 : list Contribution.t) :
  section_of (l1 ++ l2) =
  (s1 <- section_of l1 ;; s2 <- section_of l2 ;; Ok (s1 ++ s2)%string).
Proof.
  unfold section_of, staff_pick_section. fold body. rewrite for_each_app.
  destruct (for_each body l1 ""%string) as [s1|e]; simpl; [|reflexivity].
  apply staff_pick_loop_from.
Qed.

Lemma staff_pick_section_returns (l : list Contribution.t) :
  (forall c, In c l -> exists t, post_title (url c) = Ok t) ->
  exists s, section_of l = Ok s.
Proof.
  induction l as [|c l IH]; intros H.
  - now exists ""%string.
  - change (c :: l) with ([c] ++ l). rewrite staff_pick_section_app.
    destruct (H c (or_introl eq_refl)) as [t Ht].
    destruct IH as [s Hs]; [intros c' Hc'; apply H; now right|].
    unfold section_of at 1, staff_pick_section. simpl. unfold staff_pick_body.
    rewrite Ht. simpl. rewrite Hs. simpl. eexists. reflexivity.
Qed.

Lemma staff_pick_section_raises (l : list Contribution.t) (c : Contribution.t) (e : exn) :
  In c l -> post_title (url c) = Raise e -> exists e', section_of l = Raise e'.
Proof.
  induction l as [|c' l IH]; intros Hin He; [contradiction|].
  change (c' :: l) with ([c'] ++ l). rewrite staff_pick_section_app.
  destruct (section_of [c']) as [s1|e1] eqn:H1; simpl; [|now exists e1].
  destruct Hin as [->|Hin].
  - unfold section_of, staff_pick_section in H1. simpl in H1.
    unfold staff_pick_body in H1. rewrite He in H1. discriminate H1.
  - destruct (IH Hin He) as [e' ->]. now exists e'.
Qed.

(** X10. [staff_pick_section] renders the staff picks one after the other,
    in their order: the text for [l1 ++ l2] is the text for [l1] followed by
    the text for [l2].  It returns when the title of every staff pick is
    found, and raises as soon as one is not. *)
Theorem staff_pick_section_concat :
  staff_pick_section post_title str [] = Ok ""%string /\
  (forall l1 l2,
      staff_pick_section post_title str (l1 ++ l2) =
      (s1 <- staff_pick_section post_title str l1 ;;
       s2 <- staff_pick_section post_title str l2 ;; Ok (s1 ++ s2)%string)) /\
  (forall l,
      (forall c, In c l -> exists t, post_title (url c) = Ok t) ->
      exists s, staff_pick_section post_title str l = Ok s) /\
  (forall l c e,
      In c l -> post_title (url c) = Raise e ->
      exists e', staff_pick_section post_title str l = Raise e').
Proof.
  split; [reflexivity|]. split; [exact staff_pick_section_app|].
  split; [exact staff_pick_section_returns|exact staff_pick_section_raises].
Qed.

(** X11. [weekly] renders the staff picks only: a contribution that is not
    staff picked has no part in the text, and its title is not looked up;
    without staff picks the text is empty. *)
Theorem weekly_staff_picks_only :
  (forall (c : Contribution.t) (l1 l2 : list Contribution.t),
      staff_picked c = false ->
      weekly post_title str (l1 ++ c :: l2) = weekly post_title str (l1 ++ l2)) /\
  (forall cs,
      (forall c, In c cs -> staff_picked c = false) ->
      weekly post_title str cs = Ok ""%string) /\
  (forall cs,
      (forall c, In c cs -> staff_picked c = true -> exists t, post_title (url c) = Ok t) ->
      exists s, weekly post_title str cs = Ok s).
Proof.
  unfold weekly, staff_pick_statistics. split; [|split].
  - intros c l1 l2 Hc. rewrite !staff_pick_loop. simpl.
    rewrite !filter_app. simpl. now rewrite Hc.
  - intros cs H. rewrite staff_pick_loop. simpl.
    assert (Hnil : filter staff_picked cs = []).
    { induction cs as [|c cs IH]; [reflexivity|]. simpl.
      rewrite (H c (or_introl eq_refl)). apply IH. intros c' Hc'. apply H. now right. }
    now rewrite Hnil.
  - intros cs H. rewrite staff_pick_loop. simpl.
    apply staff_pick_section_returns. intros c Hc.
    apply filter_In in Hc as [Hin Hp]. now apply H.
Qed.

End DigestFacts.

Lemma staff_pick_section_concat_witness :
  let post_title := fun url : string =>
    if (url =? "https://steemit.com/@bob/post")%string then Ok "A post"%string
    else Raise KeyError in
  let str := fun _ : Q => "10"%string in
  (exists s, staff_pick_section post_title str [Sample.reviewed_b_8] = Ok s) /\
  (exists e, staff_pick_section post_title str [Sample.reviewed_b_8; Sample.task_dev] = Raise e).
Proof.
  intros post_title str.
  destruct (staff_pick_section_concat post_title str) as (_ & _ & Hret & Hraise).
  split.
  - apply Hret. intros c [<-|[]]. now exists "A post"%string.
  - apply (Hraise _ Sample.task_dev KeyError); [right; left|]; reflexivity.
Defined.

Lemma weekly_staff_picks_only_witness :
  let post_title := fun url : string =>
    if (url =? "https://steemit.com/@bob/post")%string then Ok "A post"%string
    else Raise KeyError in
  let str := fun _ : Q => "10"%string in
  weekly post_title str ([Sample.reviewed_b_8] ++ Sample.task_dev :: []) =
  weekly post_title str ([Sample.reviewed_b_8] ++ []) /\
  weekly post_title str [Sample.task_dev; Sample.banned_5] = Ok ""%string.
Proof.
  intros post_title str.
  destruct (weekly_staff_picks_only post_title str) as (Hskip & Hnone & _).
  split.
  - apply Hskip. reflexivity.
  - apply Hnone. intros c [<-|[<-|[]]]; reflexivity.
Defined.

(** ** The weekly report *)

Section ReportFacts.
Import Contribution.

Lemma category_events_raises (cs : list Contribution.t) (c : Contribution.t) :
  In c cs ->
  status c <> "unreviewed" ->
  Str.contains "task" (category c) = true ->
  Str.contains "task-" (category c) = false ->
  category_events cs = Raise IndexError.
Proof.
  intros Hin Hs Ht Hd.
  assert (Hm : main_category (category c) = Raise IndexError).
  { unfold main_category. rewrite Ht, (StrFacts.split_absent _ _ Hd). reflexivity. }
  induction cs as [|c' cs IH]; [contradiction|]. simpl.
  destruct (status c' =? "unreviewed")%string eqn:Es.
  - destruct Hin as [->|Hin]; [|now apply IH].
    apply String.eqb_eq in Es. contradiction.
  - destruct (main_category (category c')) as [ck|e] eqn:Hm'; simpl.
    + destruct Hin as [->|Hin]; [congruence|]. now rewrite (IH Hin).
    + now apply main_category_error in Hm' as ->.
Qed.

Lemma task_request_statistics_filter (cs : list Contribution.t) :
  task_request_statistics cs = filter has_task cs.
Proof.
  unfold task_request_statistics.
  now rewrite (fold_left_filter_snoc (fun c => Str.contains "task" (category c)) cs []).
Qed.

Lemma staff_pick_statistics_filter (cs : list Contribution.t) :
  staff_pick_statistics cs = filter staff_picked cs.
Proof. unfold staff_pick_statistics. now rewrite staff_pick_loop. Qed.

(** X12. [WeeklyResource.get] answers with the five statistics when every
    counted category that contains ["task"] contains ["task-"].  One counted
    contribution whose category contains ["task"] without ["task-"] makes
    [category_statistics] raise, and the whole answer is lost: the method
    returns [None]. *)
Theorem weekly_resource_get (cs : list Contribution.t) :
  (task_categories_prefixed cs ->
   WeeklyResource_get cs =
   Some (Report.mk (moderator_statistics_spec cs) (category_statistics_spec cs)
           (project_statistics_spec cs) (filter staff_picked cs) (filter has_task cs))) /\
  (forall c,
      In c cs -> status c <> "unreviewed" ->
      Str.contains "task" (category c) = true ->
      Str.contains "task-" (category c) = false ->
      WeeklyResource_get cs = None).
Proof.
  unfold WeeklyResource_get, weekly_statistics.
  rewrite moderator_statistics_refines, project_statistics_refines. cbn [bind].
  split.
  - intros H. destruct (category_statistics_returns cs H) as [out Hout].
    rewrite Hout, (category_statistics_refines cs out Hout). cbn [bind].
    now rewrite staff_pick_statistics_filter, task_request_statistics_filter.
  - intros c Hin Hs Ht Hd. rewrite category_statistics_closed.
    now rewrite (category_events_raises cs c Hin Hs Ht Hd).
Qed.

Lemma weekly_resource_get_witness :
  WeeklyResource_get [Sample.task_dev; Sample.task_bare] = None /\
  exists r, WeeklyResource_get [Sample.task_dev; Sample.banned_development] = Some r.
Proof.
  split.
  - apply (proj2 (weekly_resource_get _) Sample.task_bare).
    + right; left; reflexivity.
    + discriminate.
    + reflexivity.
    + reflexivity.
  - eexists. apply (proj1 (weekly_resource_get _)).
    intros c [<-|[<-|[]]] _; [reflexivity|discriminate].
Defined.

Lemma reviewed_only_idempotent (cs : list Contribution.t) :
  reviewed_only (reviewed_only cs) = reviewed_only cs.
Proof.
  unfold reviewed_only. rewrite filter_filter. apply filter_ext.
  intros c. apply andb_diag.
Qed.

Lemma category_events_reviewed_only (cs : list Contribution.t) :
  category_events (reviewed_only cs) = category_events cs.
Proof.
  induction cs as [|c cs IH]; [reflexivity|]. simpl.
  destruct (status c =? "unreviewed")%string eqn:Es; simpl; [exact IH|].
  now rewrite Es, IH.
Qed.

(** X13. Unreviewed contributions have no part in the three statistics:
    each reducer gives the same result, or raises the same exception, with
    and without them. *)
Theorem unreviewed_ignored (cs : list Contribution.t) :
  moderator_statistics cs = moderator_statistics (reviewed_only cs) /\
  category_statistics cs = category_statistics (reviewed_only cs) /\
  project_statistics cs = project_statistics (reviewed_only cs).
Proof.
  split; [|split].
  - rewrite !moderator_statistics_refines. unfold moderator_statistics_spec.
    assert (H : moderator_kept (reviewed_only cs) = moderator_kept cs).
    { unfold moderator_kept, reviewed_only. rewrite filter_filter. apply filter_ext.
      intros c. destruct (status c =? "unreviewed")%string; reflexivity. }
    now rewrite H.
  - rewrite !category_statistics_closed. now rewrite category_events_reviewed_only.
  - rewrite !project_statistics_refines. unfold project_statistics_spec.
    now rewrite reviewed_only_idempotent.
Qed.

(** X14. The two filters can be applied in either order, applying one twice
    changes nothing, and each works through a list piece by piece. *)
Theorem filters_compose :
  (forall cs,
      staff_pick_statistics (task_request_statistics cs) =
      task_request_statistics (staff_pick_statistics cs)) /\
  (forall cs, staff_pick_statistics (staff_pick_statistics cs) = staff_pick_statistics cs) /\
  (forall cs,
      task_request_statistics (task_request_statistics cs) = task_request_statistics cs) /\
  (forall l1 l2,
      staff_pick_statistics (l1 ++ l2) = staff_pick_statistics l1 ++ staff_pick_statistics l2) /\
  (forall l1 l2,
      task_request_statistics (l1 ++ l2) =
      task_request_statistics l1 ++ task_request_statistics l2).
Proof.
  repeat split; intros;
    rewrite ?staff_pick_statistics_filter, ?task_request_statistics_filter,
      ?staff_pick_statistics_filter, ?task_request_statistics_filter.
  - rewrite !filter_filter. apply filter_ext. intros c. apply andb_comm.
  - rewrite filter_filter. apply filter_ext. intros c. apply andb_diag.
  - rewrite filter_filter. apply filter_ext. intros c. apply andb_diag.
  - apply filter_app.
  - apply filter_app.
Qed.

End ReportFacts.

(** ** The buckets of the moderator statistics *)

Section ModeratorBucketFacts.
Import Contribution.

Lemma In_moderator_kept (cs : list Contribution.t) (c : Contribution.t) :
  In c (moderator_kept cs) <->
  In c cs /\ status c <> "unreviewed" /\ moderator c <> "BANNED".
Proof.
  unfold moderator_kept. rewrite filter_In, andb_true_iff, !negb_true_iff.
  rewrite !String.eqb_neq. tauto.
Qed.

(** X15. [moderator_statistics] always returns, with one bucket per
    moderator other than ["BANNED"] who has a contribution that is not
    unreviewed, and no moderator twice.  The category counts of a bucket add
    up to the number of contributions kept for its moderator, which is at
    least one; over all buckets the category counts add up to the number of
    contributions kept. *)
Theorem moderator_buckets (cs : list Contribution.t) :
  exists out,
    moderator_statistics cs = Ok out /\
    NoDup (map ModeratorStat.moderator out) /\
    (forall m,
        In m (map ModeratorStat.moderator out) <->
        m <> "BANNED" /\
        exists c, In c cs /\ status c <> "unreviewed" /\ moderator c = m) /\
    (forall b,
        In b out ->
        let g := filter (fun c => (moderator c =? ModeratorStat.moderator b)%string)
                   (moderator_kept cs) in
        1 <= List.length g /\
        list_sum (Dict.values (ModeratorStat.category b)) = List.length g) /\
    list_sum (map (fun b => list_sum (Dict.values (ModeratorStat.category b))) out) =
    List.length (moderator_kept cs).
Proof.
  exists (moderator_statistics_spec cs).
  split; [apply moderator_statistics_refines|].
  unfold moderator_statistics_spec. cbv zeta.
  set (kept := moderator_kept cs).
  split; [|split; [|split]].
  - rewrite map_map. simpl. rewrite map_id. apply NoDup_distinct.
  - intros m. rewrite map_map. simpl. rewrite map_id.
    rewrite In_distinct, in_map_iff. split.
    + intros (c & <- & Hc). apply In_moderator_kept in Hc as (Hin & Hs & Hb).
      split; [exact Hb|]. now exists c.
    + intros (Hb & c & Hin & Hs & <-). exists c. split; [reflexivity|].
      now apply In_moderator_kept.
  - intros b Hb. apply in_map_iff in Hb as (m & <- & Hm). simpl.
    set (g := filter (fun c => (moderator c =? m)%string) kept).
    assert (Hg : g <> []).
    { apply In_distinct, in_map_iff in Hm as (c & <- & Hc). intros Hnil.
      assert (Hin : In c g) by (apply filter_In; split; [exact Hc|apply String.eqb_refl]).
      rewrite Hnil in Hin. exact Hin. }
    split; [destruct g; [congruence|simpl; lia]|].
    now rewrite Counter_total, length_map.
  - rewrite map_map. simpl.
    rewrite (map_ext _ (fun m => count (fun _ => true)
                                   (filter (fun c => (moderator c =? m)%string) kept))).
    + rewrite (partition_count moderator (fun _ => true) kept). apply count_true.
    + intros m. now rewrite Counter_total, length_map, count_true.
Qed.

End ModeratorBucketFacts.

Lemma moderator_buckets_witness :
  let cs := [Sample.unreviewed_a; Sample.banned_5; Sample.reviewed_b_8] in
  exists out,
    moderator_statistics cs = Ok out /\
    NoDup (map ModeratorStat.moderator out) /\
    list_sum (map (fun b => list_sum (Dict.values (ModeratorStat.category b))) out) =
    List.length (moderator_kept cs).
Proof.
  intros cs.
  destruct (moderator_buckets cs) as (out & H & Hnd & _ & _ & Ht).
  exists out. split; [exact H|]. split; [exact Hnd|exact Ht].
Defined.

(** ** Doubles: a quotient that is a double is not rounded *)

Section DoubleFacts.
Import Floats.
Local Open Scope Z_scope.

Lemma digits_log2 (p : positive) : Z.pos (digits2_pos p) = Z.log2 (Z.pos p) + 1.
Proof.
  induction p as [p IH|p IH|]; simpl; try reflexivity.
  - rewrite Pos2Z.inj_succ. destruct p; simpl in *; lia.
  - rewrite Pos2Z.inj_succ. destruct p; simpl in *; lia.
Qed.

Lemma digits_mul_pow2 (p q : positive) (u v : Z) :
  0 <= u -> 0 <= v ->
  Z.pos p * 2 ^ u = Z.pos q * 2 ^ v ->
  Z.pos (digits2_pos p) + u = Z.pos (digits2_pos q) + v.
Proof.
  intros Hu Hv H. rewrite !digits_log2.
  assert (E : Z.log2 (Z.pos p * 2 ^ u) = Z.log2 (Z.pos q * 2 ^ v)) by now rewrite H.
  rewrite !Z.log2_mul_pow2 in E by lia. lia.
Qed.

Lemma shr_1_double (z : Z) :
  0 < z ->
  shr_1 (Build_shr_record (2 * z) false false) = Build_shr_record z false false.
Proof. destruct z; try lia. reflexivity. Qed.

Lemma shr_iter_exact (p : positive) (z : Z) :
  0 < z ->
  iter_pos shr_1 p (Build_shr_record (z * 2 ^ Z.pos p) false false) =
  Build_shr_record z false false.
Proof.
  revert z; induction p as [p IH|p IH|]; intros z Hz; cbn [iter_pos].
  - replace (z * 2 ^ Z.pos p~1) with (2 * ((z * 2 ^ Z.pos p) * 2 ^ Z.pos p)).
    + rewrite shr_1_double by (apply Z.mul_pos_pos; [apply Z.mul_pos_pos|]; lia).
      rewrite IH by (apply Z.mul_pos_pos; lia). now apply IH.
    + replace (Z.pos p~1) with (Z.pos p + Z.pos p + 1) by lia.
      rewrite !Z.pow_add_r by lia. rewrite Z.pow_1_r. ring.
  - replace (z * 2 ^ Z.pos p~0) with ((z * 2 ^ Z.pos p) * 2 ^ Z.pos p).
    + rewrite IH by (apply Z.mul_pos_pos; lia). now apply IH.
    + replace (Z.pos p~0) with (Z.pos p + Z.pos p) by lia.
      rewrite Z.pow_add_r by lia. ring.
  - rewrite Z.pow_1_r, Z.mul_comm. now apply shr_1_double.
Qed.

Lemma shr_exact (m : positive) (n e : Z) :
  0 <= n ->
  shr (Build_shr_record (Z.pos m * 2 ^ n) false false) e n =
  (Build_shr_record (Z.pos m) false false, e + n).
Proof.
  intros Hn. destruct n as [|p|p]; try lia.
  - simpl. now rewrite Pos.mul_1_r, Z.add_0_r.
  - unfold shr. now rewrite shr_iter_exact.
Qed.

Lemma fexp_mono (x y : Z) : x <= y -> fexp prec emax x <= fexp prec emax y.
Proof. unfold fexp. lia. Qed.

(** The quotient of [a] by [2 ^ b], when it is the value of the double of
    mantissa [m] and exponent [e], rounds to that double. *)
Lemma SFdiv_exact (s : bool) (m : positive) (e : Z) (a bp : positive) (b u v : Z) :
  bounded prec emax m e = true ->
  0 <= b -> Z.pos bp = 2 ^ b ->
  0 <= u -> 0 <= v -> v - u = e + b ->
  Z.pos a * 2 ^ u = Z.pos m * 2 ^ v ->
  SFdiv prec emax (S754_finite s a 0) (S754_finite false bp 0) = S754_finite s m e.
Proof.
  intros Hb Hb0 Hbp Hu Hv Huv Hrel.
  unfold bounded, canonical_mantissa in Hb. apply andb_true_iff in Hb as [Hc He].
  apply Z.eqb_eq in Hc. apply Z.leb_le in He.
  pose proof (digits_mul_pow2 a m u v Hu Hv Hrel) as Hd.
  assert (Hd2 : Z.pos (digits2_pos bp) = b + 1).
  { rewrite digits_log2, Hbp, Z.log2_pow2 by lia. reflexivity. }
  unfold SFdiv, SFdiv_core_binary. cbn [Zdigits2].
  set (e' := Z.min (fexp prec emax (Z.pos (digits2_pos a) + 0 - (Z.pos (digits2_pos bp) + 0)))
               (0 - 0)).
  assert (He' : e' <= e /\ e' <= 0).
  { split; [|unfold e'; lia].
    apply Z.le_trans with (fexp prec emax (Z.pos (digits2_pos m) + e)); [|lia].
    etransitivity; [apply Z.le_min_l|]. apply fexp_mono. lia. }
  destruct He' as [He1 He2].
  set (n := e - e').
  assert (Hm' : match 0 - 0 - e' with
                | Z.pos _ => Z.shiftl (Z.pos a) (0 - 0 - e')
                | 0 => Z.pos a
                | Z.neg _ => 0
                end = (Z.pos m * 2 ^ n) * Z.pos bp).
  { assert (Hs : match 0 - 0 - e' with
                 | Z.pos _ => Z.shiftl (Z.pos a) (0 - 0 - e')
                 | 0 => Z.pos a
                 | Z.neg _ => 0
                 end = Z.pos a * 2 ^ (- e')).
    { replace (0 - 0 - e') with (- e') by lia.
      destruct (- e') as [|p|p] eqn:E; try lia.
      apply Z.shiftl_mul_pow2. lia. }
    rewrite Hs, Hbp.
    apply (Z.mul_cancel_r _ _ (2 ^ u)); [apply Z.pow_nonzero; lia|].
    replace (Z.pos a * 2 ^ (- e') * 2 ^ u) with (Z.pos a * 2 ^ u * 2 ^ (- e')) by ring.
    rewrite Hrel. unfold n.
    rewrite <- !Z.mul_assoc, <- !Z.pow_add_r by lia.
    do 2 f_equal. lia. }
  rewrite Hm'.
  assert (Hdiv : Z.div_eucl (Z.pos m * 2 ^ n * Z.pos bp) (Z.pos bp) = (Z.pos m * 2 ^ n, 0)).
  { pose proof (Z.div_mul (Z.pos m * 2 ^ n) (Z.pos bp) ltac:(lia)) as Hq.
    pose proof (Z.mod_mul (Z.pos m * 2 ^ n) (Z.pos bp) ltac:(lia)) as Hr.
    unfold Z.div, Z.modulo in Hq, Hr.
    destruct (Z.div_eucl (Z.pos m * 2 ^ n * Z.pos bp) (Z.pos bp)) as [q r].
    now subst. }
  rewrite Hdiv.
  assert (Hloc : new_location (Z.pos bp) 0 = loc_Exact).
  { unfold new_location. destruct (Z.even (Z.pos bp)); reflexivity. }
  rewrite Hloc.
  unfold binary_round_aux, shr_fexp.
  assert (Hq : exists q, Z.pos m * 2 ^ n = Z.pos q).
  { assert (0 < Z.pos m * 2 ^ n) by (apply Z.mul_pos_pos; [lia|apply Z.pow_pos_nonneg; unfold n; lia]).
    destruct (Z.pos m * 2 ^ n) as [|q|q]; try lia. now exists q. }
  destruct Hq as [q Hq].
  assert (Hdq : Zdigits2 (Z.pos m * 2 ^ n) = Z.pos (digits2_pos m) + n).
  { rewrite Hq. cbn [Zdigits2].
    pose proof (digits_mul_pow2 q m 0 n ltac:(lia) ltac:(unfold n; lia)) as H.
    rewrite Z.pow_0_r, Z.mul_1_r in H. specialize (H (eq_sym Hq)). lia. }
  rewrite Hdq.
  replace (Z.pos (digits2_pos m) + n + e') with (Z.pos (digits2_pos m) + e) by (unfold n; lia).
  rewrite Hc. fold n. cbn [shr_record_of_loc].
  rewrite shr_exact by (unfold n; lia).
  cbn [shr_m loc_of_shr_record round_nearest_even Zdigits2].
  replace (e' + n) with e by (unfold n; lia).
  rewrite Hc, Z.sub_diag. cbn [shr shr_m].
  apply Z.leb_le in He. rewrite He. now destruct s.
Qed.

End DoubleFacts.

(** ** The fraction of a double *)

Section FractionFacts.
Import Floats.
Import Py.
Local Open Scope Z_scope.

Lemma pow2_divisor (k : Z) :
  0 <= k ->
  forall x y, 0 < x -> 0 < y -> x * y = 2 ^ k -> exists j, 0 <= j /\ y = 2 ^ j.
Proof.
  intros Hk. pattern k. apply natlike_ind; [| |exact Hk]; clear k Hk.
  - intros x y Hx Hy H. exists 0. split; [lia|]. rewrite Z.pow_0_r in *. nia.
  - intros k Hk IH x y Hx Hy H. rewrite Z.pow_succ_r in H by lia.
    assert (Hev : Z.even (x * y) = true) by (rewrite H, Z.even_mul; reflexivity).
    rewrite Z.even_mul in Hev. apply orb_true_iff in Hev as [Hev|Hev];
      apply Z.even_spec in Hev as [h ->].
    + apply (IH h y); lia.
    + destruct (IH x h) as (j & Hj & ->); [lia|lia|lia|].
      exists (Z.succ j). split; [lia|]. now rewrite Z.pow_succ_r.
Qed.

Lemma iter_xO_pow2 (m p : positive) : Z.pos (Pos.iter xO m p) = Z.pos m * 2 ^ Z.pos p.
Proof.
  induction p as [|p IH] using Pos.peano_ind.
  - simpl. lia.
  - rewrite Pos.iter_succ, Pos2Z.inj_succ, Z.pow_succ_r by lia.
    rewrite Pos2Z.inj_xO, IH. ring.
Qed.

Lemma Qred_pow2 (n : Z) (d : positive) (k : Z) :
  0 <= k -> Z.pos d = 2 ^ k ->
  exists b,
    0 <= b /\ Z.pos (Qden (Qred (n # d))) = 2 ^ b /\
    Qnum (Qred (n # d)) * 2 ^ k = n * 2 ^ b.
Proof.
  intros Hk Hd.
  pose proof (Qred_correct (n # d)) as Hq. unfold Qeq in Hq. simpl in Hq.
  assert (Hden : exists b, 0 <= b /\ Z.pos (Qden (Qred (n # d))) = 2 ^ b).
  { unfold Qred.
    pose proof (Z.ggcd_correct_divisors n (Z.pos d)) as Hg.
    pose proof (Z.ggcd_gcd n (Z.pos d)) as Hgcd.
    pose proof (Z.gcd_nonneg n (Z.pos d)) as Hnn.
    destruct (Z.ggcd n (Z.pos d)) as [g [aa bb]]. simpl in *.
    destruct Hg as [_ Hbb].
    assert (0 < g /\ 0 < bb) as [Hg0 Hb0] by nia.
    destruct (pow2_divisor k Hk g bb Hg0 Hb0) as (j & Hj & Hjj); [lia|].
    exists j. split; [exact Hj|]. rewrite Z2Pos.id by lia. exact Hjj. }
  destruct Hden as (b & Hb & Hden). exists b. split; [exact Hb|]. split; [exact Hden|].
  rewrite <- Hd, <- Hden. exact Hq.
Qed.

(** The fraction of a finite double, reduced, in the form [SFdiv_exact]
    asks for. *)
Lemma ratio_form (f : float) (s : bool) (m : positive) (e : Z) :
  Prim2SF f = S754_finite s m e ->
  exists q (a bp : positive) (b u v : Z),
    as_integer_ratio f = Some q /\
    Qred q = Qmake (if s then Z.neg a else Z.pos a) bp /\
    0 <= b /\ Z.pos bp = 2 ^ b /\ 0 <= u /\ 0 <= v /\ v - u = e + b /\
    Z.pos a * 2 ^ u = Z.pos m * 2 ^ v.
Proof.
  intros Hf. unfold as_integer_ratio. rewrite Hf.
  destruct e as [|p|p].
  - eexists. exists m, 1%positive, 0, 0, 0. split; [reflexivity|].
    split; [|repeat split; lia].
    apply Qcanon.Qred_identity. simpl. apply Z.gcd_1_r.
  - eexists. exists (Pos.iter xO m p), 1%positive, 0, 0, (Z.pos p).
    split; [reflexivity|]. split.
    + rewrite Qcanon.Qred_identity by (simpl; apply Z.gcd_1_r). now destruct s.
    + repeat split; try lia. rewrite iter_xO_pow2. simpl. lia.
  - assert (Hd : Z.pos (Pos.iter xO 1%positive p) = 2 ^ Z.pos p)
      by (rewrite iter_xO_pow2; lia).
    destruct (Qred_pow2 (if s then Z.neg m else Z.pos m) (Pos.iter xO 1%positive p)
                (Z.pos p) ltac:(lia) Hd) as (b & Hb & Hden & Hnum).
    destruct (Qred ((if s then Z.neg m else Z.pos m) # Pos.iter xO 1%positive p))
      as [N D] eqn:Hr. simpl in Hden, Hnum.
    assert (H2p : 0 < 2 ^ Z.pos p) by (apply Z.pow_pos_nonneg; lia).
    assert (H2b : 0 < 2 ^ b) by (apply Z.pow_pos_nonneg; lia).
    assert (Hsign : exists a, N = (if s then Z.neg a else Z.pos a) /\
                              Z.pos a * 2 ^ Z.pos p = Z.pos m * 2 ^ b).
    { destruct s, N as [|a|a]; try nia; exists a; split; try reflexivity.
      - change (Z.neg a) with (- Z.pos a) in Hnum.
        change (Z.neg m) with (- Z.pos m) in Hnum. nia.
      - exact Hnum. }
    destruct Hsign as (a & -> & Hrel).
    eexists. exists a, D, b, (Z.pos p), b.
    split; [reflexivity|]. split; [|repeat split; lia].
    rewrite <- Hr. apply Qcanon.Qred_involutive.
Qed.

End FractionFacts.

(** ** [average] on Python's numbers *)

Section PyFacts.
Import Py.

Lemma partial_none_ints (zs : list Z) (acc : option PrimFloat.float) :
  fold_left
    (fun partial x =>
       match x with
       | Float f =>
           match as_integer_ratio f with
           | Some _ => partial
           | None =>
               Some (match partial with
                     | Some t => PrimFloat.add t f
                     | None => PrimFloat.add PrimFloat.zero f
                     end)
           end
       | Int _ => partial
       end)
    (map Int zs) acc = acc.
Proof. revert acc; induction zs as [|z zs IH]; intros acc; simpl; auto. Qed.

Lemma total_ints (zs : list Z) (t : Q) :
  (fold_left
     (fun t x => match _exact_ratio x with Some q => t + q | None => t end)
     (map Int zs) t == t + inject_Z (isum zs))%Q.
Proof.
  revert t; induction zs as [|z zs IH]; intros t; simpl.
  - unfold inject_Z. ring.
  - rewrite IH, inject_Z_plus. ring.
Qed.

Lemma all_ints (zs : list Z) : forallb is_int (map Int zs) = true.
Proof. induction zs; simpl; auto. Qed.

(** On integers whose count divides their sum, [mean] is exact. *)
Lemma mean_ints_whole (zs : list Z) (c : Z) :
  zs <> [] ->
  isum zs = (c * Z.of_nat (List.length zs))%Z ->
  mean (map Int zs) = Ok (Int c).
Proof.
  intros Hne Hsum. unfold mean. rewrite length_map.
  assert (Hn : (1 <= Z.of_nat (List.length zs))%Z) by (destruct zs; [congruence|simpl; lia]).
  destruct (Z.of_nat (List.length zs) <? 1)%Z eqn:E; [apply Z.ltb_lt in E; lia|].
  unfold partial_none. rewrite partial_none_ints.
  assert (Hv : Qred (total (map Int zs) / inject_Z (Z.of_nat (List.length zs))) = inject_Z c).
  { rewrite <- (Qcanon.Qred_identity (inject_Z c)) by apply Z.gcd_1_r.
    apply Qred_complete. unfold total. rewrite total_ints, Hsum, inject_Z_mult.
    rewrite Qplus_0_l. apply Qdiv_mult_l.
    unfold inject_Z, Qeq. simpl. lia. }
  cbv zeta. rewrite Hv, all_ints. reflexivity.
Qed.

End PyFacts.

Section PyMeanFacts.
Import Floats.
Import Py.

Lemma exact_values (data : list num) (qs : list Q) :
  map _exact_ratio data = map Some qs ->
  List.length data = List.length qs /\
  partial_none data = None /\
  (total data == fold_right Qplus 0 qs)%Q.
Proof.
  intros H.
  assert (Hlen : List.length data = List.length qs).
  { rewrite <- (length_map _exact_ratio data), H. apply length_map. }
  split; [exact Hlen|]. unfold partial_none, total.
  assert (Hgen : forall (acc : option float) (t : Q),
             fold_left
               (fun partial x =>
                  match x with
                  | Float f =>
                      match as_integer_ratio f with
                      | Some _ => partial
                      | None =>
                          Some (match partial with Some t => t + f | None => 0 + f end)%float
                      end
                  | Int _ => partial
                  end) data acc = acc /\
             (fold_left
                (fun t x => match _exact_ratio x with Some q => t + q | None => t end)
                data t == t + fold_right Qplus 0 qs)%Q).
  { clear Hlen. revert qs H; induction data as [|x data IH]; intros qs H acc t.
    - destruct qs; [|discriminate H]. simpl. split; [reflexivity|ring].
    - destruct qs as [|q qs]; [discriminate H|]. simpl in H.
      injection H as Hx H. specialize (IH qs H).
      cbn [fold_left fold_right]. rewrite Hx.
      destruct (IH acc (t + q)%Q) as [Ha Ht]. split.
      + destruct x as [z|f]; [exact Ha|]. simpl in Hx. rewrite Hx. exact Ha.
      + rewrite Ht. ring. }
  destruct (Hgen None 0%Q) as [Ha Ht]. split; [exact Ha|]. rewrite Ht. ring.
Qed.

Lemma SFeqb_finite_refl (s : bool) (m : positive) (e : Z) :
  SFeqb (S754_finite s m e) (S754_finite s m e) = true.
Proof.
  unfold SFeqb, SFcompare. rewrite Z.compare_refl, Pos.compare_cont_refl.
  now destruct s.
Qed.

(** When the arithmetic mean of the data is the value of a double, [mean]
    returns a number equal to that double. *)
Lemma mean_representable (data : list num) (qs : list Q) (f : float) (q : Q) :
  data <> [] ->
  map _exact_ratio data = map Some qs ->
  as_integer_ratio f = Some q ->
  (qmean qs == q)%Q ->
  exists r, mean data = Ok r /\ eq r (Float f) = true.
Proof.
  intros Hne Hqs Hf Hmean.
  destruct (exact_values data qs Hqs) as (Hlen & Hpart & Htot).
  unfold mean. rewrite Hpart.
  assert (Hn : (Z.of_nat (List.length data) <? 1)%Z = false).
  { apply Z.ltb_ge. destruct data; [congruence|simpl List.length; lia]. }
  rewrite Hn. cbv zeta.
  assert (Hval : Qred (total data / inject_Z (Z.of_nat (List.length data))) = Qred q).
  { apply Qred_complete. rewrite Htot, Hlen. exact Hmean. }
  rewrite Hval.
  destruct (Prim2SF f) as [s|s| |s m e] eqn:Hsf.
  - (* the double is a zero *)
    assert (Hq : q = 0%Q).
    { unfold as_integer_ratio in Hf. rewrite Hsf in Hf. now injection Hf as <-. }
    subst q. change (Qred 0) with 0%Q. cbn [Qnum Qden Pos.eqb].
    destruct (forallb is_int data); cbn [andb].
    + eexists. split; [reflexivity|]. unfold eq. rewrite Hf. reflexivity.
    + eexists. split; [reflexivity|]. unfold eq. rewrite eqb_spec, Hsf. reflexivity.
  - unfold as_integer_ratio in Hf. rewrite Hsf in Hf. discriminate Hf.
  - unfold as_integer_ratio in Hf. rewrite Hsf in Hf. discriminate Hf.
  - destruct (ratio_form f s m e Hsf)
      as (q' & a & bp & b & u & v & Hq' & Hred & Hb & Hbp & Hu & Hv & Huv & Hrel).
    assert (q' = q) by congruence. subst q'.
    pose proof (Prim2SF_valid f) as Hvalid. rewrite Hsf in Hvalid. simpl in Hvalid.
    rewrite Hred. cbn [Qnum Qden].
    destruct (forallb is_int data && (bp =? 1)%positive) eqn:Hint.
    + apply andb_true_iff in Hint as [_ Hbp1]. apply Pos.eqb_eq in Hbp1. subst bp.
      eexists. split; [reflexivity|]. unfold eq. rewrite Hf.
      apply Qeq_bool_iff. rewrite <- (Qred_correct q), Hred. reflexivity.
    + unfold true_divide. cbn [Z.eqb].
      assert (Hdiv : SFdiv prec emax (int_spec (if s then Z.neg a else Z.pos a))
                       (int_spec (Z.pos bp)) = S754_finite s m e).
      { replace (int_spec (if s then Z.neg a else Z.pos a)) with (S754_finite s a 0)
          by (now destruct s).
        exact (SFdiv_exact s m e a bp b u v Hvalid Hb Hbp Hu Hv Huv Hrel). }
      rewrite Hdiv. cbn [bind]. eexists. split; [reflexivity|].
      unfold eq. rewrite eqb_spec, <- Hsf, SF2Prim_Prim2SF, Hsf.
      apply SFeqb_finite_refl.
Qed.

Lemma mean_float_infinity (f : float) (s : bool) :
  Prim2SF f = S754_infinity s -> mean [Float f] = Ok (Float ((0 + f) / 1)%float).
Proof.
  intros Hf. unfold mean, partial_none, total.
  cbn [List.length Z.of_nat fold_left _exact_ratio]. unfold as_integer_ratio.
  rewrite Hf. reflexivity.
Qed.

Lemma average_singleton (x : num) :
  eq x x = true -> eq (average [x]) x = true.
Proof.
  destruct x as [z|f]; intros Hx.
  - unfold average. change [Int z] with (map Int [z]).
    rewrite (mean_ints_whole [z] z); [simpl; apply Z.eqb_refl|discriminate|].
    unfold isum. simpl. lia.
  - unfold eq in Hx. rewrite eqb_spec in Hx. unfold average.
    destruct (as_integer_ratio f) as [q|] eqn:Hq.
    + destruct (mean_representable [Float f] [q] f q) as (r & Hr & Hreq);
        [discriminate|simpl; now rewrite Hq|exact Hq| |].
      * unfold qmean. simpl. unfold Qdiv, Qinv, inject_Z. simpl. ring.
      * now rewrite Hr.
    + unfold as_integer_ratio in Hq.
      destruct (Prim2SF f) as [s|s| |s m e] eqn:Hf; try discriminate.
      * rewrite (mean_float_infinity f s Hf). unfold eq.
        rewrite eqb_spec, div_spec, add_spec, Hf. now destruct s.
      * now destruct e.
Qed.

End PyMeanFacts.

(** ** [average] (C9) *)

Section AverageFacts.
Import Floats.
Import Py.
Local Open Scope Z_scope.

(** C9, as amended.  [average] never raises: it returns 0 when the sequence is
    empty and whenever [statistics.mean] raises.  It returns the arithmetic
    mean of its input when that mean can be returned without rounding: the
    whole number [c] when the values are integers and their sum is [c] times
    their count, and a number equal to the double [f] when the values are
    integers or finite doubles and their arithmetic mean is the value of [f].
    In particular [average [] = 0], [average [x] == x] for every [x] with
    [x == x] (every number but NaN), and [average [2, 4, 6] = 4]. *)
Theorem average_safe :
  average [] = Int 0 /\
  (forall (data : list num) (e : exn), mean data = Raise e -> average data = Int 0) /\
  (forall (zs : list Z) (c : Z),
      zs <> [] -> isum zs = c * Z.of_nat (List.length zs) ->
      average (map Int zs) = Int c) /\
  (forall (data : list num) (qs : list Q) (f : float) (q : Q),
      data <> [] -> map _exact_ratio data = map Some qs ->
      as_integer_ratio f = Some q -> (qmean qs == q)%Q ->
      eq (average data) (Float f) = true) /\
  (forall x : num, eq x x = true -> eq (average [x]) x = true) /\
  average [Int 2; Int 4; Int 6] = Int 4.
Proof.
  split; [reflexivity|]. split.
  { intros data e H. unfold average. now rewrite H. }
  split.
  { intros zs c Hne Hsum. unfold average. now rewrite (mean_ints_whole zs c Hne Hsum). }
  split.
  { intros data qs f q Hne Hqs Hf Hmean.
    destruct (mean_representable data qs f q Hne Hqs Hf Hmean) as (r & Hr & Heq).
    unfold average. now rewrite Hr. }
  split; [exact average_singleton|].
  unfold average. change [Int 2; Int 4; Int 6] with (map Int [2; 4; 6]).
  rewrite (mean_ints_whole [2; 4; 6] 4); [reflexivity|discriminate|reflexivity].
Qed.

Lemma average_safe_witness :
  average (map Int [10 ^ 400; 10 ^ 400 + 2]) = Int (10 ^ 400 + 1) /\
  eq (average [Int 1; Float 0.5]) (Float 0.75) = true /\
  eq (average [Float 2.5]) (Float 2.5) = true /\
  average [Int (10 ^ 400); Int (10 ^ 400 + 1)] = Int 0.
Proof.
  destruct average_safe as (_ & Hraise & Hwhole & Hdouble & Hone & _).
  split.
  { apply (Hwhole [10 ^ 400; 10 ^ 400 + 2] (10 ^ 400 + 1)); [discriminate|].
    vm_compute. reflexivity. }
  split.
  { apply (Hdouble [Int 1; Float 0.5] [1; 1 # 2]%Q 0.75%float (3 # 4)%Q);
      [discriminate|vm_compute; reflexivity|vm_compute; reflexivity|reflexivity]. }
  split.
  { apply (Hone (Float 2.5)). vm_compute. reflexivity. }
  apply (Hraise [Int (10 ^ 400); Int (10 ^ 400 + 1)] OverflowError).
  vm_compute. reflexivity.
Defined.

(** C9, as stated, fails.  The arithmetic mean of ten 9s and a 10 is 100/11;
    [average] returns the double 9.090909090909092, whose value is another
    fraction.  The mean of 10^400 and 10^400 + 1 is beyond the doubles:
    [statistics.mean] raises [OverflowError] and [average] returns 0.  And
    [average [x] == x] fails for NaN. *)
Lemma average_safe_counterexample :
  average (map Int [9; 9; 9; 9; 9; 9; 9; 9; 9; 9; 10]) = Float 0x1.22e8ba2e8ba2fp+3 /\
  as_integer_ratio 0x1.22e8ba2e8ba2fp+3 = Some (5117726849284655 # 562949953421312)%Q /\
  Qeq_bool (5117726849284655 # 562949953421312) (100 # 11) = false /\
  mean [Int (10 ^ 400); Int (10 ^ 400 + 1)] = Raise OverflowError /\
  average [Int (10 ^ 400); Int (10 ^ 400 + 1)] = Int 0 /\
  eq (average [Float nan]) (Float nan) = false.
Proof. repeat split; vm_compute; reflexivity. Qed.

End AverageFacts.
